(** * cubeworld: the axis-permuted [Point] and the fixed-timestep [GameClient]

    A shallow embedding of [include/point.h] and of [gameclient.cpp], with the
    properties of the written specification stated and proved over it.

    Conventions of the embedding.
    - A C++ [int] that is only stored and compared is a [Z].
    - [assert] is modelled as in a debug build: a violated assertion stops the
      call with [AssertionFailure].
    - Calls on collaborators (window, renderer, sleep) and on the overridable
      hooks are recorded, in order, in a trace of [Event]s.
    - Times are rationals, compared with [==], [<] and [<=] of [Q].
    - A [float] or [double] is the rational it denotes; an operation on them
      is the exact operation followed by rounding to the nearest number of
      the format, ties to even.  The exponent range is not modelled: the
      values computed here (1.0f / 50.0f, 0.01f, 1.0 / n for an [int] n) are
      far inside it. *)

From Stdlib Require Import ZArith QArith Qround Qpower Lqa List Bool Lia SpecFloat.
Import ListNotations.

Set Implicit Arguments.

(** ** Results of calls guarded by [assert] *)

Inductive outcome (A : Type) : Type :=
| Ok (a : A)
| AssertionFailure.

Arguments Ok {A} a.
Arguments AssertionFailure {A}.

Definition bind_outcome {A B : Type} (o : outcome A) (k : A -> outcome B) : outcome B :=
  match o with
  | Ok a => k a
  | AssertionFailure => AssertionFailure
  end.

Notation "'do' x <- o ; k" := (bind_outcome o (fun x => k))
  (at level 10, x name, o at level 100, k at level 200).

(** * point.h *)

Module Point.

(** [const int PR[3] = { 1, 2, 0 }], [PC], [PD]: the slot of the triple that
    holds the row, the column and the depth for each primary axis. *)
Definition PR : list Z := [1; 2; 0]%Z.
Definition PC : list Z := [2; 0; 1]%Z.
Definition PD : list Z := [0; 1; 2]%Z.

(** Reading a table at an index; the source only does so under
    [assert( axis >= 0 && axis < 3 )], outside of which the read is undefined
    and has no value here. *)
Definition table_at (tbl : list Z) (i : Z) : option Z :=
  if (0 <=? i)%Z then nth_error tbl (Z.to_nat i) else None.

(** [union { struct { int x; int y; int z; }; int v[3]; }] *)
Record t : Type := mk { x : Z; y : Z; z : Z }.

(** [v[i]] read through the union: slot 0 is [x], slot 1 is [y], slot 2 is [z]. *)
Definition v_get (p : t) (i : Z) : option Z :=
  match i with
  | 0%Z => Some (x p)
  | 1%Z => Some (y p)
  | 2%Z => Some (z p)
  | _ => None
  end.

(** [v[i] = val] written through the union. *)
Definition v_set (p : t) (i : Z) (val : Z) : option t :=
  match i with
  | 0%Z => Some (mk val (y p) (z p))
  | 1%Z => Some (mk (x p) val (z p))
  | 2%Z => Some (mk (x p) (y p) val)
  | _ => None
  end.

(** A read or write outside the array has no value; every call that passes
    its assertion stays inside. *)
Definition of_option {A : Type} (o : option A) : outcome A :=
  match o with
  | Some a => Ok a
  | None => AssertionFailure
  end.

(** [Point()] *)
Definition Point0 : t := mk 0 0 0.

(** [Point( int x_, int y_, int z_ )] *)
Definition Point3 (x_ y_ z_ : Z) : t := mk x_ y_ z_.

(** [Point( int axis, int x_, int y_, int z_ )].  The constructor has no member
    initialisers, so the three writes land on whatever the storage held;
    [uninit] stands for that previous content. *)
Definition Point4 (uninit : t) (axis x_ y_ z_ : Z) : outcome t :=
  if ((0 <=? axis) && (axis <? 3))%Z then
    do r <- of_option (table_at PR axis);
    do p1 <- of_option (v_set uninit r x_);
    do c <- of_option (table_at PC axis);
    do p2 <- of_option (v_set p1 c y_);
    do d <- of_option (table_at PD axis);
    of_option (v_set p2 d z_)
  else AssertionFailure.

(** [bool operator == ( const Point& rhs ) const] *)
Definition eqb (lhs rhs : t) : bool :=
  ((x lhs =? x rhs) && (y lhs =? y rhs) && (z lhs =? z rhs))%Z.

(** [bool operator != ( const Point& rhs ) const] *)
Definition neqb (lhs rhs : t) : bool :=
  (negb (x lhs =? x rhs) || negb (y lhs =? y rhs) || negb (z lhs =? z rhs))%Z.

(** [int operator[] ( int index ) const] *)
Definition index (p : t) (i : Z) : outcome Z :=
  if ((0 <=? i) && (i <? 3))%Z then of_option (v_get p i) else AssertionFailure.

(** [int& operator[] ( int index )], used to write a component:
    [p[index] = val]. *)
Definition store (p : t) (i : Z) (val : Z) : outcome t :=
  if ((0 <=? i) && (i <? 3))%Z then of_option (v_set p i val) else AssertionFailure.

(** [bool isZero() const] *)
Definition isZero (p : t) : bool :=
  ((x p =? 0) && (y p =? 0) && (z p =? 0))%Z.

(** Reading a point back through the three tables of an axis: the row, column
    and depth coordinates relative to that axis. *)
Definition read_back (p : t) (axis : Z) : outcome (Z * Z * Z) :=
  do r <- of_option (table_at PR axis);
  do c <- of_option (table_at PC axis);
  do d <- of_option (table_at PD axis);
  do a <- index p r;
  do b <- index p c;
  do e <- index p d;
  Ok (a, b, e).

End Point.

(** * gameclient.cpp *)

Local Open Scope Q_scope.

(** Modelled from the spec: the [Time] class of [common/time.h] is not among
    the sources.  The specification describes a value type built from a
    seconds value, with [+], [-], [+=], [-=], [<], [>=], [>] and a conversion
    back to seconds.  It is taken here as an exact number of seconds, a
    rational: a time holds the seconds it was built from, and its sums,
    differences and comparisons are exact. *)
Definition Time : Type := Q.

Definition toDouble (t : Time) : Q := t.

(** [a >= b], [a > b] and [a < b] on [Time]. *)
Definition Time_ge (a b : Time) : bool := Qle_bool b a.
Definition Time_gt (a b : Time) : bool := negb (Qle_bool a b).
Definition Time_lt (a b : Time) : bool := negb (Qle_bool b a).

(** ** Floating-point values *)

(** The integer nearest to [x], the even one of the two when [x] lies half
    way between them. *)
Definition rne (x : Q) : Z :=
  let f := Qfloor x in
  match Qcompare (x - inject_Z f) (1 # 2) with
  | Lt => f
  | Gt => (f + 1)%Z
  | Eq => if Z.even f then f else (f + 1)%Z
  end.

(** The exponent [e] of the last place of a positive [q] in a format of
    [prec] significant bits: [2 ^ (prec - 1) <= q / 2 ^ e < 2 ^ prec]. *)
Definition ulpExponent (prec : Z) (q : Q) : Z :=
  let e0 := (Z.log2 (Qnum q) - Z.log2 (Zpos (Qden q)) - prec)%Z in
  if Qle_bool (2 ^ prec) (q / 2 ^ e0) then (e0 + 1)%Z else e0.

Definition roundPositive (prec : Z) (q : Q) : Q :=
  let e := ulpExponent prec q in
  inject_Z (rne (q / 2 ^ e)) * 2 ^ e.

(** [q] rounded to the nearest number with [prec] significant bits. *)
Definition roundBinary (prec : Z) (q : Q) : Q :=
  match Qcompare q 0 with
  | Eq => 0
  | Gt => roundPositive prec q
  | Lt => - roundPositive prec (- q)
  end.

(** The significant bits of [float] and of [double]. *)
Definition FLT_MANT_DIG : Z := 24.
Definition DBL_MANT_DIG : Z := 53.

(** A [float] literal, and the division of two [float]s. *)
Definition float_literal (q : Q) : Q := roundBinary FLT_MANT_DIG q.
Definition float_div (a b : Q) : Q := roundBinary FLT_MANT_DIG (a / b).

(** The division of two [double]s. *)
Definition double_div (a b : Q) : Q := roundBinary DBL_MANT_DIG (a / b).

(** [Time( double )]: the time of that many seconds.  A [float] argument is
    first converted to [double], which changes no value. *)
Definition Time_of_seconds (seconds : Q) : Time := seconds.

(** [IWindow *] and [IRenderer *]: [NULL] or the address of an object. *)
Inductive pointer : Type :=
| NULL
| Addr (a : nat).

Definition is_null (p : pointer) : bool :=
  match p with
  | NULL => true
  | Addr _ => false
  end.

(** [App::EPROGRAM_OK] and [App::EPROGRAM_FATAL_ERROR]. *)
Inductive ProgramStatus : Type :=
| EPROGRAM_OK
| EPROGRAM_FATAL_ERROR.

(** Modelled from the spec: the class declaration ([gameclient.h]) is not
    among the sources.  The data members are the six that the constructor
    initialises, with the types the specification gives them. *)
Record GameClient : Type := mkGameClient {
  mpMainWindow : pointer;
  mpRenderer : pointer;
  mIsGameRunning : bool;
  mIsRunningSlowly : bool;
  mUpdateFrequency : Time;
  mMaximumSleepSkew : Time
}.

Definition set_mIsGameRunning (c : GameClient) (b : bool) : GameClient :=
  mkGameClient (mpMainWindow c) (mpRenderer c) b (mIsRunningSlowly c)
               (mUpdateFrequency c) (mMaximumSleepSkew c).

Definition set_mIsRunningSlowly (c : GameClient) (b : bool) : GameClient :=
  mkGameClient (mpMainWindow c) (mpRenderer c) (mIsGameRunning c) b
               (mUpdateFrequency c) (mMaximumSleepSkew c).

Definition set_mUpdateFrequency (c : GameClient) (p : Time) : GameClient :=
  mkGameClient (mpMainWindow c) (mpRenderer c) (mIsGameRunning c)
               (mIsRunningSlowly c) p (mMaximumSleepSkew c).

(** [GameClient::GameClient( IWindow *pMainWindow, IRenderer *pRenderer )]:
    the member initialisers, then the two assertions of the body. *)
Definition GameClient_ctor (pMainWindow pRenderer : pointer) : outcome GameClient :=
  let this :=
    {| mpMainWindow := pMainWindow;
       mpRenderer := NULL;
       mIsGameRunning := false;
       mIsRunningSlowly := false;
       mUpdateFrequency := Time_of_seconds (float_div 1 50);
       mMaximumSleepSkew := Time_of_seconds (float_literal 0.01) |} in
  if is_null pMainWindow then AssertionFailure
  else if is_null pRenderer then AssertionFailure
  else Ok this.

(** [void GameClient::setUpdateFrequency( int numUpdatesPerSecond )] *)
Definition setUpdateFrequency (c : GameClient) (numUpdatesPerSecond : Z)
  : outcome GameClient :=
  if (0 <? numUpdatesPerSecond)%Z
  then Ok (set_mUpdateFrequency c
             (Time_of_seconds (double_div 1 (inject_Z numUpdatesPerSecond))))
  else AssertionFailure.

(** What the run of a client does to the outside, in order.  The hooks are
    member functions, so [update] and [draw] see the client they are called
    on. *)
Inductive Event : Type :=
| EvShow (w : pointer)
| EvInitializeClient
| EvInitialize
| EvLoadContent
| EvUnloadContent
| EvEnterMainLoop
| EvLeaveMainLoop
| EvProcessMessages (w : pointer)
| EvUpdate (this : GameClient) (simulationTime deltaTime : Time)
| EvDraw (this : GameClient) (simulationTime : Time) (interpolation : Q)
| EvPresent (r : pointer)
| EvSleep (d : Time).

(** Modelled from the spec: which member functions are virtual is declared in
    [gameclient.h]; the specification lists these six as overridable.  They
    act on the state [G] that a game built on the client adds to it; [update]
    and [draw] read the client and do not write its members. *)
Class GameHooks (G : Type) : Type := {
  initializeClient : G -> bool * G;
  initialize : G -> bool * G;
  loadContent : G -> bool * G;
  unloadContent : G -> G;
  update : GameClient -> Time -> Time -> G -> G;
  draw : GameClient -> Time -> Q -> G -> G
}.

(** The implementations of [GameClient] itself: the three start-up hooks
    return [true], the others do nothing. *)
#[export] Instance BaseHooks : GameHooks unit := {
  initializeClient := fun g => (true, g);
  initialize := fun g => (true, g);
  loadContent := fun g => (true, g);
  unloadContent := fun g => g;
  update := fun _ _ _ g => g;
  draw := fun _ _ _ g => g
}.

(** [size_t] is taken as 64 bits wide. *)
Definition SIZE_MODULUS : Z := (2 ^ 64)%Z.

Section MainLoop.

Context {G : Type} {hooks : GameHooks G}.

(** The client, the game state and the three local variables of
    [runMainGameLoop]. *)
Record LoopState : Type := mkLoopState {
  this : GameClient;
  game : G;
  simulationTime : Time;
  accumulatedTime : Time;
  systemTime : Time
}.

(** [if ( frameTime > Time(0.25) ) frameTime = Time(0.25);] *)
Definition clampFrameTime (frameTime : Time) : Time :=
  if Time_gt frameTime 0.25 then 0.25 else frameTime.

(** One turn of the body of [while ( accumulatedTime >= mUpdateFrequency )]. *)
Definition updateStep (st : LoopState) (numUpdates : Z) : LoopState * Z * Event :=
  let c := set_mIsRunningSlowly (this st) (0 <? numUpdates)%Z in
  let g := update c (simulationTime st) (mUpdateFrequency c) (game st) in
  (mkLoopState c g
               (simulationTime st + mUpdateFrequency c)
               (accumulatedTime st - mUpdateFrequency c)
               (systemTime st),
   ((numUpdates + 1) mod SIZE_MODULUS)%Z,
   EvUpdate c (simulationTime st) (mUpdateFrequency c)).

(** [while ( accumulatedTime >= mUpdateFrequency ) { ... }].  The loop need not
    end (a period of zero never drains the accumulator), so it runs on fuel:
    [None] when [fuel] turns were not enough. *)
Fixpoint drain (fuel : nat) (st : LoopState) (numUpdates : Z)
  : option (LoopState * Z * list Event) :=
  if Time_ge (accumulatedTime st) (mUpdateFrequency (this st)) then
    match fuel with
    | O => None
    | S fuel' =>
        let '(st', numUpdates', ev) := updateStep st numUpdates in
        match drain fuel' st' numUpdates' with
        | None => None
        | Some (st'', n, evs) => Some (st'', n, ev :: evs)
        end
    end
  else Some (st, numUpdates, []).

(** [1.0f - ( accumulatedTime.toDouble() / mUpdateFrequency.toDouble() )] *)
Definition interpolationOf (st : LoopState) : Q :=
  1 - toDouble (accumulatedTime st) / toDouble (mUpdateFrequency (this st)).

(** [draw( simulationTime, interpolation ); mpRenderer->present();] *)
Definition drawStep (st : LoopState) : LoopState * list Event :=
  let interpolation := interpolationOf st in
  let g := draw (this st) (simulationTime st) interpolation (game st) in
  (mkLoopState (this st) g (simulationTime st) (accumulatedTime st) (systemTime st),
   [EvDraw (this st) (simulationTime st) interpolation;
    EvPresent (mpRenderer (this st))]).

(** [if ( accumulatedTime + mMaximumSleepSkew < mUpdateFrequency )
        App::sleep( Time( 2.0 ) );] *)
Definition sleepStep (st : LoopState) : LoopState * list Event :=
  if Time_lt (accumulatedTime st + mMaximumSleepSkew (this st))
             (mUpdateFrequency (this st))
  then (st, [EvSleep 2.0])
  else (st, []).

(** The frame up to the inner loop: the messages are processed, the clock is
    read as [newTime], and the clamped frame time goes into the accumulator. *)
Definition accumulate (st : LoopState) (newTime : Time) : LoopState :=
  let frameTime := newTime - systemTime st in
  let frameTime := clampFrameTime frameTime in
  mkLoopState (this st) (game st) (simulationTime st)
              (accumulatedTime st + frameTime) newTime.

(** The body of the outer [while], for the clock reading [newTime]. *)
Definition frame (fuel : nat) (st : LoopState) (newTime : Time)
  : option (LoopState * list Event) :=
  let st1 := accumulate st newTime in
  match drain fuel st1 0%Z with
  | None => None
  | Some (st2, _, updates) =>
      let '(st3, drawn) := drawStep st2 in
      let '(st4, slept) := sleepStep st3 in
      Some (st4, EvProcessMessages (mpMainWindow (this st)) :: updates ++ drawn ++ slept)
  end.

(** [while ( mIsGameRunning && (!mpMainWindow->didUserQuit()) )].  The window
    and the clock are inputs: [clock] lists what [App::currentTime()] returns
    in the successive turns of the loop, and the window reports that the user
    quit once the list is used up. *)
Fixpoint frames (fuel : nat) (st : LoopState) (clock : list Time)
  : option (LoopState * list Event) :=
  match clock with
  | [] => Some (st, [])
  | newTime :: clock' =>
      if mIsGameRunning (this st) then
        match frame fuel st newTime with
        | None => None
        | Some (st', evs) =>
            match frames fuel st' clock' with
            | None => None
            | Some (st'', evs') => Some (st'', evs ++ evs')
            end
        end
      else Some (st, [])
  end.

(** [int GameClient::runMainGameLoop()]; [now] is the clock reading taken
    before the loop. *)
Definition runMainGameLoop (fuel : nat) (c : GameClient) (g : G)
           (now : Time) (clock : list Time)
  : option (ProgramStatus * LoopState * list Event) :=
  let st := mkLoopState (set_mIsGameRunning c true) g 0 0 now in
  match frames fuel st clock with
  | None => None
  | Some (st', evs) => Some (EPROGRAM_OK, st', EvEnterMainLoop :: evs ++ [EvLeaveMainLoop])
  end.

(** [int GameClient::run()] *)
Definition run (fuel : nat) (c : GameClient) (g : G) (now : Time) (clock : list Time)
  : option (ProgramStatus * GameClient * G * list Event) :=
  let shown := [EvShow (mpMainWindow c)] in
  let '(ok1, g1) := initializeClient g in
  if negb ok1 then
    Some (EPROGRAM_FATAL_ERROR, c, g1, shown ++ [EvInitializeClient])
  else
    let '(ok2, g2) := initialize g1 in
    if negb ok2 then
      Some (EPROGRAM_FATAL_ERROR, c, g2, shown ++ [EvInitializeClient; EvInitialize])
    else
      let '(ok3, g3) := loadContent g2 in
      let started := shown ++ [EvInitializeClient; EvInitialize; EvLoadContent] in
      if negb ok3 then
        Some (EPROGRAM_FATAL_ERROR, c, g3, started)
      else
        match runMainGameLoop fuel c g3 now clock with
        | None => None
        | Some (_, st, evs) =>
            Some (EPROGRAM_OK, this st, unloadContent (game st),
                  started ++ evs ++ [EvUnloadContent])
        end.

End MainLoop.

Arguments LoopState G : clear implicits.

(** ** Vocabulary of the statements *)

(** The members of a client that the main loop never writes. *)
Definition config (c : GameClient) : pointer * pointer * bool * Time * Time :=
  (mpMainWindow c, mpRenderer c, mIsGameRunning c, mUpdateFrequency c,
   mMaximumSleepSkew c).

Definition isUpdate (e : Event) : bool :=
  match e with
  | EvUpdate _ _ _ => true
  | _ => false
  end.

Definition isSleep (e : Event) : bool :=
  match e with
  | EvSleep _ => true
  | _ => false
  end.

(** The number of [update] calls in a trace. *)
Definition countUpdates (evs : list Event) : nat := length (filter isUpdate evs).

(** The frame times that the loop measures from the clock readings:
    [newTime - systemTime] in each turn. *)
Fixpoint frameTimes (now : Time) (clock : list Time) : list Time :=
  match clock with
  | [] => []
  | newTime :: clock' => (newTime - now) :: frameTimes newTime clock'
  end.

Definition sumTimes (l : list Time) : Time := fold_right Qplus 0 l.

(** Turns of the inner loop that are enough for any one frame when the
    period is positive. *)
Definition frameFuel (period : Time) : nat :=
  S (Z.to_nat (Qfloor (0.25 / period) + 1)).

Section LoopVocabulary.

Context {G : Type} {hooks : GameHooks G}.

(** The events that close a frame: the draw, the present and the sleep. *)
Definition frameTail (st : LoopState G) : list Event :=
  [EvDraw (this st) (simulationTime st) (interpolationOf st);
   EvPresent (mpRenderer (this st))] ++
  (if Time_lt (accumulatedTime st + mMaximumSleepSkew (this st))
              (mUpdateFrequency (this st))
   then [EvSleep 2.0] else []).

(** The frame and the loop with step (h) of the specification, the sleep,
    skipped: the comparison terms for the statement that the sleep changes no
    simulation result. *)
Definition frameSkippingSleep (fuel : nat) (st : LoopState G) (newTime : Time)
  : option (LoopState G * list Event) :=
  let st1 := accumulate st newTime in
  match drain fuel st1 0%Z with
  | None => None
  | Some (st2, _, updates) =>
      let '(st3, drawn) := drawStep st2 in
      Some (st3, EvProcessMessages (mpMainWindow (this st)) :: updates ++ drawn)
  end.

Fixpoint framesSkippingSleep (fuel : nat) (st : LoopState G) (clock : list Time)
  : option (LoopState G * list Event) :=
  match clock with
  | [] => Some (st, [])
  | newTime :: clock' =>
      if mIsGameRunning (this st) then
        match frameSkippingSleep fuel st newTime with
        | None => None
        | Some (st', evs) =>
            match framesSkippingSleep fuel st' clock' with
            | None => None
            | Some (st'', evs') => Some (st'', evs ++ evs')
            end
        end
      else Some (st, [])
  end.

(** A result with the sleeps taken out of its trace. *)
Definition withoutSleeps (r : option (LoopState G * list Event))
  : option (LoopState G * list Event) :=
  match r with
  | None => None
  | Some (st, evs) => Some (st, filter (fun e => negb (isSleep e)) evs)
  end.

End LoopVocabulary.

(** The shortest period for which the [size_t] counter of a frame cannot
    wrap around: a quarter of a second holds at most [2 ^ 64] such periods. *)
Definition minPeriod : Time := 1 # (2 ^ 66).

(** A client as the constructor leaves it, for the worked examples. *)
Definition exampleClient : GameClient :=
  match GameClient_ctor (Addr 1) (Addr 2) with
  | Ok c => c
  | AssertionFailure => mkGameClient NULL NULL false false 0 0
  end.

(** The state in which [runMainGameLoop] enters its loop on that client, with
    the clock at zero. *)
Definition exampleStart : LoopState unit :=
  mkLoopState (set_mIsGameRunning exampleClient true) tt 0 0 0.

(** A game whose [loadContent] fails, and one whose [initialize] fails. *)
Definition FailingLoad : GameHooks unit := {|
  initializeClient := fun g => (true, g);
  initialize := fun g => (true, g);
  loadContent := fun g => (false, g);
  unloadContent := fun g => g;
  update := fun _ _ _ g => g;
  draw := fun _ _ _ g => g
|}.

Definition FailingInitialize : GameHooks unit := {|
  initializeClient := fun g => (true, g);
  initialize := fun g => (false, g);
  loadContent := fun g => (true, g);
  unloadContent := fun g => g;
  update := fun _ _ _ g => g;
  draw := fun _ _ _ g => g
|}.

(** The rational denoted by a floating-point number of the standard
    library's model of IEEE 754, and the number of that model for an
    integer. *)
Definition SF2Q (f : spec_float) : Q :=
  match f with
  | S754_finite s m e => inject_Z (if s then Z.neg m else Z.pos m) * 2 ^ e
  | _ => 0
  end.

Definition SFofZ (prec emax : Z) (n : Z) : spec_float :=
  binary_normalize prec emax n 0 false.

(** The largest [int], the type of the argument of [setUpdateFrequency]. *)
Definition INT_MAX : Z := (2 ^ 31 - 1)%Z.

(** The periods that the constructor and [setUpdateFrequency] can leave in a
    client. *)
Definition validPeriod (c : GameClient) : Prop :=
  1 # (2 ^ 31) <= mUpdateFrequency c /\ mUpdateFrequency c <= 1.

Definition isDraw (e : Event) : bool :=
  match e with
  | EvDraw _ _ _ => true
  | _ => false
  end.

Definition isPresent (e : Event) : bool :=
  match e with
  | EvPresent _ => true
  | _ => false
  end.

Definition isProcessMessages (e : Event) : bool :=
  match e with
  | EvProcessMessages _ => true
  | _ => false
  end.

(** The trace of one turn of the loop: the messages are processed, the
    updates are made, the frame is drawn and presented, and there is at most
    one sleep, in that order. *)
Definition frameShaped (evs : list Event) : Prop :=
  exists w updates c t i r sleeps,
    evs = EvProcessMessages w :: updates ++ [EvDraw c t i; EvPresent r] ++ sleeps /\
    Forall (fun e => isUpdate e = true) updates /\
    (sleeps = [] \/ exists d, sleeps = [EvSleep d]).

(** A trace with one [processMessages], one [draw] and one [present]. *)
Definition oneOfEach (evs : list Event) : Prop :=
  length (filter isProcessMessages evs) = 1%nat /\
  length (filter isDraw evs) = 1%nat /\
  length (filter isPresent evs) = 1%nat.

(** The most updates one frame can make: the clamp leaves room for
    floor(0.25 / period) periods beside the one that may be carried over. *)
Definition maxUpdatesPerFrame (period : Time) : nat :=
  S (Z.to_nat (Qfloor (0.25 / period))).

(** The frame times as the loop accumulates them, after the clamp. *)
Definition clampedTimes (now : Time) (clock : list Time) : list Time :=
  map clampFrameTime (frameTimes now clock).

(** A trace whose [update] and [draw] calls carry the simulation time that
    [k] earlier updates of one [period] each have made. *)
Fixpoint timed (period : Time) (k : nat) (evs : list Event) : Prop :=
  match evs with
  | [] => True
  | EvUpdate _ t dt :: evs' =>
      t == inject_Z (Z.of_nat k) * period /\ dt = period /\ timed period (S k) evs'
  | EvDraw _ t _ :: evs' =>
      t == inject_Z (Z.of_nat k) * period /\ timed period k evs'
  | _ :: evs' => timed period k evs'
  end.

Unset Implicit Arguments.

(** * Properties of [Point] *)

Section PointFacts.

Local Open Scope Z_scope.

Example Point4_axis0 : Point.Point4 (Point.mk 7 8 9) 0 1 2 3 = Ok (Point.mk 3 1 2).
Proof. reflexivity. Qed.

Example Point4_axis1 : Point.Point4 (Point.mk 7 8 9) 1 1 2 3 = Ok (Point.mk 2 3 1).
Proof. reflexivity. Qed.

Example Point4_axis3 : Point.Point4 (Point.mk 7 8 9) 3 1 2 3 = AssertionFailure.
Proof. reflexivity. Qed.

Lemma axis_cases (axis : Z) : 0 <= axis < 3 -> axis = 0 \/ axis = 1 \/ axis = 2.
Proof. lia. Qed.

(** C8.  For every axis in {0,1,2} and all integers a, b, c, the point built
    by [Point(axis, a, b, c)], whatever its storage held before, has [a] in
    slot [PR[axis]], [b] in slot [PC[axis]] and [c] in slot [PD[axis]], with
    the tables [PR = {1,2,0}], [PC = {2,0,1}], [PD = {0,1,2}]; reading the
    point back through the tables of the same axis gives [(a, b, c)]. *)
Theorem Point4_read_back (uninit : Point.t) (axis a b c : Z) :
  0 <= axis < 3 ->
  Point.PR = [1; 2; 0] /\ Point.PC = [2; 0; 1] /\ Point.PD = [0; 1; 2] /\
  exists p pr pc pd,
    Point.Point4 uninit axis a b c = Ok p /\
    Point.table_at Point.PR axis = Some pr /\
    Point.table_at Point.PC axis = Some pc /\
    Point.table_at Point.PD axis = Some pd /\
    Point.index p pr = Ok a /\
    Point.index p pc = Ok b /\
    Point.index p pd = Ok c /\
    Point.read_back p axis = Ok (a, b, c).
Proof.
  intros H.
  repeat (split; [reflexivity |]).
  destruct uninit as [ux uy uz].
  destruct (axis_cases _ H) as [-> | [-> | ->]]; cbn;
    eexists _, _, _, _; repeat (split; [reflexivity |]); reflexivity.
Qed.

Lemma Point4_read_back_witness :
  exists p, Point.Point4 (Point.mk 7 8 9) 1 10 20 30 = Ok p /\
            Point.read_back p 1 = Ok (10, 20, 30).
Proof.
  destruct (Point4_read_back (Point.mk 7 8 9) 1 10 20 30 ltac:(lia))
    as (_ & _ & _ & p & pr & pc & pd & Hp & _ & _ & _ & _ & _ & _ & Hrb).
  exists p. split; assumption.
Defined.

(** C10.  With the depth axis as primary the four-argument constructor is the
    three-argument one: [Point(2, a, b, c) == Point(a, b, c)].  For every
    axis in {0,1,2} the slots [PR[axis]], [PC[axis]], [PD[axis]] are pairwise
    distinct, and the constructed point does not depend on what the storage
    held before: all three components are initialised. *)
Theorem Point4_depth_axis_identity (uninit : Point.t) (a b c : Z) :
  (exists p, Point.Point4 uninit 2 a b c = Ok p /\
             p = Point.Point3 a b c /\
             Point.eqb p (Point.Point3 a b c) = true) /\
  forall axis, In axis [0; 1; 2] ->
    (exists pr pc pd,
        Point.table_at Point.PR axis = Some pr /\
        Point.table_at Point.PC axis = Some pc /\
        Point.table_at Point.PD axis = Some pd /\
        pr <> pc /\ pr <> pd /\ pc <> pd) /\
    (exists p, forall other : Point.t, Point.Point4 other axis a b c = Ok p).
Proof.
  split.
  { exists (Point.Point3 a b c).
    split; [destruct uninit; reflexivity |].
    split; [reflexivity |].
    unfold Point.eqb. rewrite !Z.eqb_refl. reflexivity. }
  intros axis Hin.
  cbn in Hin.
  assert (Hinit : exists p, forall other, Point.Point4 other axis a b c = Ok p).
  { exists (match Point.Point4 Point.Point0 axis a b c with
            | Ok p => p
            | AssertionFailure => Point.Point0
            end).
    intros [ox oy oz].
    cbn in Hin.
    destruct Hin as [<- | [<- | [<- | []]]]; reflexivity. }
  split; [| exact Hinit].
  cbn in Hin.
  destruct Hin as [<- | [<- | [<- | []]]];
    cbn; eexists _, _, _; repeat (split; [reflexivity |]); lia.
Qed.

End PointFacts.

(** * Properties of the floating-point values *)

Section FloatFacts.

Local Open Scope Q_scope.

Lemma rne_error (x : Q) :
  - (1 # 2) <= inject_Z (rne x) - x /\ inject_Z (rne x) - x <= 1 # 2.
Proof.
  unfold rne.
  pose proof (Qfloor_le x) as Hlo. pose proof (Qlt_floor x) as Hhi.
  rewrite inject_Z_plus in Hhi. change (inject_Z 1) with 1 in Hhi.
  destruct (Qcompare (x - inject_Z (Qfloor x)) (1 # 2)) eqn:E.
  - apply Qeq_alt in E.
    destruct (Z.even (Qfloor x)).
    + split; lra.
    + rewrite inject_Z_plus. change (inject_Z 1) with 1. split; lra.
  - apply Qlt_alt in E. split; lra.
  - apply Qgt_alt in E. rewrite inject_Z_plus. change (inject_Z 1) with 1. split; lra.
Qed.

Lemma two_neq_0 : ~ 2 == 0.
Proof. discriminate. Qed.

Lemma pow2_pos (e : Z) : 0 < 2 ^ e.
Proof. apply Qpower_0_lt. reflexivity. Qed.

Lemma pow2_succ (e : Z) : 2 ^ (e + 1) == 2 * 2 ^ e.
Proof. rewrite Qpower_plus by exact two_neq_0. rewrite Qpower_1_r. ring. Qed.

Lemma ulpExponent_scaled (prec : Z) (q : Q) :
  0 < q -> 2 ^ (prec - 1) * 2 ^ ulpExponent prec q <= q.
Proof.
  intros Hq. unfold ulpExponent.
  set (e0 := (Z.log2 (Qnum q) - Z.log2 (Z.pos (Qden q)) - prec)%Z).
  pose proof (pow2_pos e0) as He0.
  pose proof (pow2_pos (prec - 1)) as Hp1.
  assert (Hprec : 2 ^ prec == 2 * 2 ^ (prec - 1)).
  { rewrite <- pow2_succ. apply Qpower_comp; [reflexivity | lia]. }
  destruct (Qle_bool (2 ^ prec) (q / 2 ^ e0)) eqn:E.
  - apply Qle_bool_iff in E.
    rewrite pow2_succ.
    assert (Hq0 : q / 2 ^ e0 * 2 ^ e0 == q) by (field; lra).
    assert (Hm : 2 ^ prec * 2 ^ e0 <= q / 2 ^ e0 * 2 ^ e0).
    { apply Qmult_le_compat_r; [exact E | lra]. }
    rewrite Hq0, Hprec in Hm.
    setoid_replace (2 ^ (prec - 1) * (2 * 2 ^ e0)) with (2 * 2 ^ (prec - 1) * 2 ^ e0) by ring.
    exact Hm.
  - clear E.
    destruct q as [a b]. cbn [Qnum Qden] in e0.
    assert (Ha : (0 < a)%Z).
    { unfold Qlt in Hq. cbn in Hq. lia. }
    pose proof (Z.log2_spec a Ha) as [Hla _].
    pose proof (Z.log2_spec (Z.pos b) eq_refl) as [_ Hlb].
    pose proof (Z.log2_nonneg a) as Hla0.
    pose proof (Z.log2_nonneg (Z.pos b)) as Hlb0.
    set (la := Z.log2 a) in *. set (lb := Z.log2 (Z.pos b)) in *.
    assert (HA : 2 ^ la <= inject_Z a).
    { change 2 with (inject_Z 2). rewrite <- Zpower_Qpower by exact Hla0.
      rewrite <- Zle_Qle. exact Hla. }
    assert (HB : inject_Z (Z.pos b) <= 2 ^ (lb + 1)).
    { change 2 with (inject_Z 2). rewrite <- Zpower_Qpower by lia.
      rewrite <- Zle_Qle. unfold Z.succ in Hlb. lia. }
    assert (Hsum : 2 ^ (prec - 1) * 2 ^ e0 * 2 ^ (lb + 1) == 2 ^ la).
    { rewrite <- !Qpower_plus by exact two_neq_0.
      apply Qpower_comp; [reflexivity | subst e0; lia]. }
    assert (Hb : 0 < inject_Z (Z.pos b)) by reflexivity.
    pose proof (pow2_pos (lb + 1)) as HPB.
    rewrite (Qmake_Qdiv a b).
    apply Qle_shift_div_l; [exact Hb |].
    set (t := 2 ^ (prec - 1) * 2 ^ e0) in *.
    assert (Ht : 0 < t) by (apply Qmult_lt_0_compat; assumption).
    assert (H1 : t * inject_Z (Z.pos b) <= t * 2 ^ (lb + 1)).
    { apply Qmult_le_l; assumption. }
    lra.
Qed.

(** The exponent is the canonical one: the scaled value has exactly [prec]
    bits before the point. *)
Lemma ulpExponent_canonical (prec : Z) (q : Q) :
  0 < q ->
  2 ^ (prec - 1) <= q / 2 ^ ulpExponent prec q /\
  q / 2 ^ ulpExponent prec q < 2 ^ prec.
Proof.
  intros Hq.
  pose proof (ulpExponent_scaled prec q Hq) as Hlow.
  pose proof (pow2_pos (ulpExponent prec q)) as He.
  split; [apply Qle_shift_div_l; assumption |].
  apply Qlt_shift_div_r; [exact He |].
  clear Hlow He. unfold ulpExponent.
  set (e0 := (Z.log2 (Qnum q) - Z.log2 (Z.pos (Qden q)) - prec)%Z).
  pose proof (pow2_pos e0) as He0.
  destruct (Qle_bool (2 ^ prec) (q / 2 ^ e0)) eqn:E.
  - clear E. rewrite pow2_succ.
    destruct q as [a b]. cbn [Qnum Qden] in e0.
    assert (Ha : (0 < a)%Z).
    { unfold Qlt in Hq. cbn in Hq. lia. }
    pose proof (Z.log2_spec a Ha) as [_ Hla].
    pose proof (Z.log2_spec (Z.pos b) eq_refl) as [Hlb _].
    pose proof (Z.log2_nonneg a) as Hla0.
    pose proof (Z.log2_nonneg (Z.pos b)) as Hlb0.
    set (la := Z.log2 a) in *. set (lb := Z.log2 (Z.pos b)) in *.
    assert (HA : inject_Z a < 2 ^ (la + 1)).
    { change 2 with (inject_Z 2). rewrite <- Zpower_Qpower by lia.
      rewrite <- Zlt_Qlt. unfold Z.succ in Hla. exact Hla. }
    assert (HB : 2 ^ lb <= inject_Z (Z.pos b)).
    { change 2 with (inject_Z 2). rewrite <- Zpower_Qpower by exact Hlb0.
      rewrite <- Zle_Qle. exact Hlb. }
    assert (Hsum : 2 ^ prec * (2 * 2 ^ e0) * 2 ^ lb == 2 ^ (la + 1)).
    { rewrite <- pow2_succ, <- !Qpower_plus by exact two_neq_0.
      apply Qpower_comp; [reflexivity | subst e0; lia]. }
    assert (Hb : 0 < inject_Z (Z.pos b)) by reflexivity.
    rewrite (Qmake_Qdiv a b).
    apply Qlt_shift_div_r; [exact Hb |].
    set (t := 2 ^ prec * (2 * 2 ^ e0)) in *.
    assert (Ht : 0 < t).
    { subst t. pose proof (pow2_pos prec). apply Qmult_lt_0_compat; lra. }
    assert (H1 : t * 2 ^ lb <= t * inject_Z (Z.pos b)).
    { apply Qmult_le_l; assumption. }
    lra.
  - assert (Hlt : q / 2 ^ e0 < 2 ^ prec).
    { apply Qnot_le_lt. intros Hle. apply Qle_bool_iff in Hle. congruence. }
    assert (Hq0 : q / 2 ^ e0 * 2 ^ e0 == q) by (field; lra).
    rewrite <- Hq0. apply Qmult_lt_r; assumption.
Qed.

Lemma roundPositive_error (prec : Z) (q : Q) :
  0 < q ->
  - q <= (roundPositive prec q - q) * 2 ^ prec /\
  (roundPositive prec q - q) * 2 ^ prec <= q.
Proof.
  intros Hq.
  pose proof (ulpExponent_scaled prec q Hq) as Hs.
  unfold roundPositive.
  set (e := ulpExponent prec q) in *.
  pose proof (pow2_pos e) as He. pose proof (pow2_pos (prec - 1)) as Hp1.
  assert (Hprec : 2 ^ prec == 2 * 2 ^ (prec - 1)).
  { rewrite <- pow2_succ. apply Qpower_comp; [reflexivity | lia]. }
  destruct (rne_error (q / 2 ^ e)) as [Hlo Hhi].
  set (m := inject_Z (rne (q / 2 ^ e))) in *.
  assert (Hx : q / 2 ^ e * 2 ^ e == q) by (field; lra).
  set (x := q / 2 ^ e) in *.
  set (s := 2 ^ e) in *. set (h := 2 ^ (prec - 1)) in *.
  assert (Hhs : 0 < h * s) by (apply Qmult_lt_0_compat; assumption).
  assert (Heq : (m * s - q) * 2 ^ prec == (m - x) * 2 * (h * s)).
  { rewrite Hprec, <- Hx. ring. }
  rewrite Heq.
  assert (H1 : (m - x) * 2 * (h * s) <= 1 * (h * s)).
  { apply Qmult_le_compat_r; lra. }
  assert (H2 : (-1) * (h * s) <= (m - x) * 2 * (h * s)).
  { apply Qmult_le_compat_r; lra. }
  split; lra.
Qed.

Lemma roundBinary_error (prec : Z) (q : Q) :
  0 < q ->
  - q <= (roundBinary prec q - q) * 2 ^ prec /\
  (roundBinary prec q - q) * 2 ^ prec <= q.
Proof.
  intros Hq. unfold roundBinary.
  assert (E : Qcompare q 0 = Gt) by (apply Qgt_alt; exact Hq).
  rewrite E. apply roundPositive_error. exact Hq.
Qed.

(** The quotient [1.0 / n] of [double]s, for a positive integer [n], times
    [n], is within [2 ^ -53] of 1. *)
Lemma double_div_1_error (n : Z) :
  (0 < n)%Z ->
  - (1 # 2 ^ 53) <= double_div 1 (inject_Z n) * inject_Z n - 1 /\
  double_div 1 (inject_Z n) * inject_Z n - 1 <= 1 # 2 ^ 53.
Proof.
  intros Hn.
  assert (HN : 0 < inject_Z n).
  { change 0 with (inject_Z 0). rewrite <- Zlt_Qlt. exact Hn. }
  assert (Hq : 0 < 1 / inject_Z n).
  { apply Qlt_shift_div_l; [exact HN | lra]. }
  assert (HqN : 1 / inject_Z n * inject_Z n == 1) by (field; lra).
  destruct (roundBinary_error DBL_MANT_DIG _ Hq) as [Hlo Hhi].
  unfold double_div.
  set (P := roundBinary DBL_MANT_DIG (1 / inject_Z n)) in *.
  set (q := 1 / inject_Z n) in *. set (N := inject_Z n) in *.
  assert (HK : 2 ^ DBL_MANT_DIG == 9007199254740992) by reflexivity.
  rewrite HK in Hlo, Hhi.
  assert (H1 : (P - q) * 9007199254740992 * N <= q * N).
  { apply Qmult_le_compat_r; lra. }
  assert (H2 : (- q) * N <= (P - q) * 9007199254740992 * N).
  { apply Qmult_le_compat_r; lra. }
  assert (H3 : (P - q) * 9007199254740992 * N == (P * N - q * N) * 9007199254740992)
    by ring.
  assert (Hc : (1 # 2 ^ 53) * 9007199254740992 == 1) by reflexivity.
  split; lra.
Qed.

(** For an [int] the quotient lies between 2^-31 and 1. *)
Lemma double_div_1_bounds (n : Z) :
  (0 < n <= INT_MAX)%Z ->
  1 # 2 ^ 31 <= double_div 1 (inject_Z n) /\ double_div 1 (inject_Z n) <= 1.
Proof.
  intros [Hn Hmax].
  destruct (double_div_1_error n Hn) as [Hlo Hhi].
  assert (HN : 0 < inject_Z n).
  { change 0 with (inject_Z 0). rewrite <- Zlt_Qlt. exact Hn. }
  set (P := double_div 1 (inject_Z n)) in *. set (N := inject_Z n) in *.
  change (1 # 2 ^ 53) with (1 # 9007199254740992) in Hlo, Hhi.
  change (1 # 2 ^ 31) with (1 # 2147483648).
  split.
  - assert (Hle : N <= inject_Z (2 ^ 31 - 1)).
    { subst N. rewrite <- Zle_Qle. unfold INT_MAX in Hmax. exact Hmax. }
    assert (Hc : inject_Z (2 ^ 31 - 1) == 2147483647) by reflexivity.
    apply (Qmult_le_r _ _ N HN). lra.
  - destruct (Z.eq_dec n 1) as [-> | Hne].
    + subst P. vm_compute. discriminate.
    + assert (Hge : inject_Z 2 <= N).
      { subst N. rewrite <- Zle_Qle. lia. }
      change (inject_Z 2) with 2 in Hge.
      apply (Qmult_le_r _ _ N HN). lra.
Qed.

(** For the powers of two that an [int] can hold the quotient is exact. *)
Lemma double_div_1_pow2 (k : Z) :
  (0 <= k <= 30)%Z -> double_div 1 (inject_Z (2 ^ k)) == 1 / inject_Z (2 ^ k).
Proof.
  intros Hk.
  assert (Hall : forallb (fun j => Qeq_bool (double_div 1 (inject_Z (2 ^ j)))
                                            (1 / inject_Z (2 ^ j)))
                         (map Z.of_nat (seq 0 31)) = true)
    by (vm_compute; reflexivity).
  rewrite forallb_forall in Hall.
  apply Qeq_bool_iff. apply Hall.
  replace k with (Z.of_nat (Z.to_nat k)) by lia.
  apply in_map, in_seq. lia.
Qed.

(** The model agrees with the division of the standard library's model of
    IEEE 754 [double]s on 1.0 / n, for n up to 1000 and at the top of the
    [int] range, and with its [float]s on the two constants of the
    constructor. *)
Example double_div_agrees_with_SFdiv :
  forallb (fun n => Qeq_bool (SF2Q (SFdiv 53 1024 (SFofZ 53 1024 1) (SFofZ 53 1024 n)))
                             (double_div 1 (inject_Z n)))
          (map Z.of_nat (seq 1 1000) ++ [1073741823; 1073741824; 2147483646; 2147483647]%Z)
  = true.
Proof. vm_compute. reflexivity. Qed.

Example float_constants_agree_with_SFdiv :
  SF2Q (SFdiv 24 128 (SFofZ 24 128 1) (SFofZ 24 128 50)) == float_div 1 50 /\
  SF2Q (SFdiv 24 128 (SFofZ 24 128 1) (SFofZ 24 128 100)) == float_literal 0.01.
Proof. split; vm_compute; reflexivity. Qed.

End FloatFacts.

(** * Properties of the [GameClient] *)

Section LoopFacts.

Context {G : Type} {hooks : GameHooks G}.

Local Open Scope Q_scope.

Lemma Time_ge_true (a b : Time) : Time_ge a b = true <-> b <= a.
Proof. unfold Time_ge. apply Qle_bool_iff. Qed.

Lemma Time_ge_false (a b : Time) : Time_ge a b = false <-> a < b.
Proof.
  unfold Time_ge. split; intros H.
  - apply Qnot_le_lt. intros Hle. apply Qle_bool_iff in Hle. congruence.
  - destruct (Qle_bool b a) eqn:E; [| reflexivity].
    apply Qle_bool_iff in E. lra.
Qed.

Lemma Time_gt_true (a b : Time) : Time_gt a b = true <-> b < a.
Proof.
  unfold Time_gt. rewrite negb_true_iff. apply (Time_ge_false b a).
Qed.

Lemma Time_gt_false (a b : Time) : Time_gt a b = false <-> a <= b.
Proof.
  unfold Time_gt. rewrite negb_false_iff. apply Qle_bool_iff.
Qed.

Lemma Time_lt_true (a b : Time) : Time_lt a b = true <-> a < b.
Proof.
  unfold Time_lt. rewrite negb_true_iff. apply (Time_ge_false a b).
Qed.

Lemma inject_nat_succ (n : nat) :
  inject_Z (Z.of_nat (S n)) == inject_Z (Z.of_nat n) + 1.
Proof. rewrite Nat2Z.inj_succ. unfold Z.succ. rewrite inject_Z_plus. reflexivity. Qed.

(** The clamp: above a quarter of a second the frame time becomes exactly
    that, otherwise it is kept. *)
Lemma clampFrameTime_above (ft : Time) : 0.25 < ft -> clampFrameTime ft = 0.25.
Proof.
  intros H. unfold clampFrameTime.
  apply Time_gt_true in H. rewrite H. reflexivity.
Qed.

Lemma clampFrameTime_below (ft : Time) : ft <= 0.25 -> clampFrameTime ft = ft.
Proof.
  intros H. unfold clampFrameTime.
  apply Time_gt_false in H. rewrite H. reflexivity.
Qed.

Lemma clampFrameTime_le (ft : Time) : clampFrameTime ft <= 0.25.
Proof.
  unfold clampFrameTime.
  destruct (Time_gt ft 0.25) eqn:E; [lra |].
  apply Time_gt_false in E. exact E.
Qed.

(** What one pass of the inner loop leaves behind. *)
Lemma drain_inv (fuel : nat) :
  forall (st : LoopState G) (n : Z) st' n' evs,
    drain fuel st n = Some (st', n', evs) ->
    let period := mUpdateFrequency (this st) in
    let k := inject_Z (Z.of_nat (length evs)) in
    config (this st') = config (this st) /\
    systemTime st' = systemTime st /\
    simulationTime st' == simulationTime st + k * period /\
    accumulatedTime st' == accumulatedTime st - k * period /\
    accumulatedTime st' < period /\
    (evs <> [] -> 0 <= accumulatedTime st') /\
    countUpdates evs = length evs.
Proof.
  induction fuel as [| fuel IH]; intros st n st' n' evs H; cbn in H.
  - destruct (Time_ge (accumulatedTime st) (mUpdateFrequency (this st))) eqn:E;
      [discriminate |].
    injection H as <- <- <-. cbn.
    apply Time_ge_false in E.
    repeat split; try reflexivity;
      try (change (inject_Z 0) with 0; lra); congruence.
  - destruct (Time_ge (accumulatedTime st) (mUpdateFrequency (this st))) eqn:E.
    + destruct (drain fuel _ _) as [[[st2 n2] evs2] |] eqn:D; [| discriminate].
      injection H as <- <- <-.
      apply IH in D. cbn in D.
      destruct D as (Hc & Hs & Hsim & Hacc & Hlt & Hnn & Hcnt).
      apply Time_ge_true in E.
      cbn [length]. rewrite inject_nat_succ.
      repeat split.
      * exact Hc.
      * exact Hs.
      * rewrite Hsim. ring.
      * rewrite Hacc. ring.
      * exact Hlt.
      * intros _. destruct evs2 as [| e evs2].
        -- cbn in Hacc. change (inject_Z 0) with 0 in Hacc. lra.
        -- apply Hnn. discriminate.
      * unfold countUpdates in *. cbn. rewrite Hcnt. reflexivity.
    + injection H as <- <- <-. cbn.
      apply Time_ge_false in E.
      repeat split; try reflexivity;
      try (change (inject_Z 0) with 0; lra); congruence.
Qed.

(** The inner loop ends as soon as the fuel covers the accumulator. *)
Lemma drain_terminates (fuel : nat) :
  forall (st : LoopState G) (n : Z),
    0 < mUpdateFrequency (this st) ->
    accumulatedTime st < inject_Z (Z.of_nat fuel) * mUpdateFrequency (this st) ->
    exists r, drain fuel st n = Some r.
Proof.
  induction fuel as [| fuel IH]; intros st n Hpos Hlt.
  - cbn. change (inject_Z (Z.of_nat 0)) with 0 in Hlt.
    destruct (Time_ge (accumulatedTime st) (mUpdateFrequency (this st))) eqn:E.
    + apply Time_ge_true in E. lra.
    + eexists. reflexivity.
  - cbn [drain].
    destruct (Time_ge (accumulatedTime st) (mUpdateFrequency (this st))) eqn:E.
    + rewrite inject_nat_succ in Hlt.
      destruct (IH (fst (fst (updateStep st n))) (snd (fst (updateStep st n))))
        as [[[st2 n2] evs2] D].
      * exact Hpos.
      * cbn. lra.
      * cbn in D |- *. rewrite D. eexists. reflexivity.
    + eexists. reflexivity.
Qed.

Lemma frameFuel_enough (period : Time) (fuel : nat) :
  0 < period -> (frameFuel period <= fuel)%nat ->
  0.25 + period < inject_Z (Z.of_nat fuel) * period.
Proof.
  intros Hpos Hfuel. unfold frameFuel in Hfuel.
  set (m := Qfloor (0.25 / period)) in *.
  assert (Hq : 0 <= 0.25 / period).
  { apply Qle_shift_div_l; [exact Hpos | lra]. }
  assert (Hm : (0 <= m)%Z).
  { change 0%Z with (Qfloor 0). apply Qfloor_resp_le. exact Hq. }
  assert (Hlt : 0.25 / period < inject_Z (m + 1)) by apply Qlt_floor.
  assert (Hz : (m + 2 <= Z.of_nat fuel)%Z) by lia.
  assert (Hge : inject_Z (m + 1) + 1 <= inject_Z (Z.of_nat fuel)).
  { change 1 with (inject_Z 1). rewrite <- inject_Z_plus.
    rewrite <- Zle_Qle. lia. }
  assert (Hdiv : (0.25 / period) * period == 0.25).
  { field. lra. }
  assert (H1 : (0.25 / period + 1) * period < inject_Z (Z.of_nat fuel) * period).
  { apply Qmult_lt_r; [exact Hpos | lra]. }
  lra.
Qed.

(** The counter and the flag after the inner loop. *)
Lemma drain_flag (fuel : nat) :
  forall (st : LoopState G) (n : Z) st' n' evs,
    drain fuel st n = Some (st', n', evs) ->
    (0 <= n < SIZE_MODULUS)%Z ->
    (evs = [] -> st' = st) /\
    (evs <> [] ->
     mIsRunningSlowly (this st') =
     (0 <? (n + Z.of_nat (length evs) - 1) mod SIZE_MODULUS)%Z).
Proof.
  induction fuel as [| fuel IH]; intros st n st' n' evs H Hn; cbn in H.
  - destruct (Time_ge _ _); [discriminate |].
    injection H as <- <- <-. split; [reflexivity | congruence].
  - destruct (Time_ge _ _).
    + destruct (drain fuel _ _) as [[[st2 n2] evs2] |] eqn:D; [| discriminate].
      injection H as <- <- <-.
      apply IH in D; [| apply Z.mod_pos_bound; reflexivity].
      destruct D as [Hnil Hcons].
      split; [discriminate |].
      intros _. destruct evs2 as [| e evs2].
      * rewrite (Hnil eq_refl). cbn.
        replace (n + 1 - 1)%Z with n by lia.
        rewrite Z.mod_small by exact Hn. reflexivity.
      * rewrite Hcons by discriminate.
        f_equal.
        set (len := Z.of_nat (length (e :: evs2))).
        replace (Z.of_nat (length (snd (updateStep st n) :: e :: evs2)))
          with (len + 1)%Z by (subst len; cbn [length]; lia).
        change 18446744073709551616%Z with SIZE_MODULUS.
        replace ((n + 1) mod SIZE_MODULUS + len - 1)%Z
          with ((n + 1) mod SIZE_MODULUS + (len - 1))%Z by lia.
        rewrite Zplus_mod_idemp_l.
        f_equal. lia.
    + injection H as <- <- <-. split; [reflexivity | congruence].
Qed.

Lemma config_fields (c c' : GameClient) :
  config c' = config c ->
  mpMainWindow c' = mpMainWindow c /\ mpRenderer c' = mpRenderer c /\
  mIsGameRunning c' = mIsGameRunning c /\
  mUpdateFrequency c' = mUpdateFrequency c /\
  mMaximumSleepSkew c' = mMaximumSleepSkew c.
Proof. unfold config. intros H. injection H as -> -> -> -> ->. repeat split. Qed.

Lemma countUpdates_app (l1 l2 : list Event) :
  countUpdates (l1 ++ l2) = (countUpdates l1 + countUpdates l2)%nat.
Proof. unfold countUpdates. rewrite filter_app, length_app. reflexivity. Qed.

Lemma countUpdates_frameTail (st : LoopState G) : countUpdates (frameTail st) = 0%nat.
Proof. unfold frameTail. destruct (Time_lt _ _); reflexivity. Qed.

(** A frame that returns is the inner loop run on the accumulated state,
    followed by the draw, the present and the sleep. *)
Lemma frame_inversion (fuel : nat) (st : LoopState G) (newTime : Time) st' evs :
  frame fuel st newTime = Some (st', evs) ->
  exists st2 n2 updates,
    drain fuel (accumulate st newTime) 0%Z = Some (st2, n2, updates) /\
    st' = mkLoopState (this st2)
            (draw (this st2) (simulationTime st2) (interpolationOf st2) (game st2))
            (simulationTime st2) (accumulatedTime st2) (systemTime st2) /\
    evs = EvProcessMessages (mpMainWindow (this st)) :: updates ++ frameTail st2 /\
    countUpdates evs = length updates.
Proof.
  unfold frame. intros H.
  destruct (drain fuel (accumulate st newTime) 0%Z) as [[[st2 n2] updates] |] eqn:D;
    [| discriminate].
  exists st2, n2, updates.
  assert (Hshape :
    st' = mkLoopState (this st2)
            (draw (this st2) (simulationTime st2) (interpolationOf st2) (game st2))
            (simulationTime st2) (accumulatedTime st2) (systemTime st2) /\
    evs = EvProcessMessages (mpMainWindow (this st)) :: updates ++ frameTail st2).
  { unfold drawStep, sleepStep, frameTail in *. cbn in H |- *.
    destruct (Time_lt _ _); injection H as <- <-; split; reflexivity. }
  destruct Hshape as [-> ->].
  repeat split.
  change (countUpdates (EvProcessMessages (mpMainWindow (this st)) :: updates ++ frameTail st2))
    with (countUpdates (updates ++ frameTail st2)).
  rewrite countUpdates_app, countUpdates_frameTail, Nat.add_0_r.
  apply (drain_inv _ _ _ _ _ _ D).
Qed.

(** One frame of a client with a positive period, entered with less than a
    period in the accumulator: it returns, and this is what it leaves. *)
Lemma frame_step (fuel : nat) (st : LoopState G) (newTime : Time) :
  0 < mUpdateFrequency (this st) ->
  accumulatedTime st < mUpdateFrequency (this st) ->
  (frameFuel (mUpdateFrequency (this st)) <= fuel)%nat ->
  exists st' evs,
    frame fuel st newTime = Some (st', evs) /\
    config (this st') = config (this st) /\
    systemTime st' = newTime /\
    simulationTime st' ==
      simulationTime st
      + inject_Z (Z.of_nat (countUpdates evs)) * mUpdateFrequency (this st) /\
    accumulatedTime st' ==
      accumulatedTime st + clampFrameTime (newTime - systemTime st)
      - inject_Z (Z.of_nat (countUpdates evs)) * mUpdateFrequency (this st) /\
    accumulatedTime st' < mUpdateFrequency (this st) /\
    (0 <= accumulatedTime st + clampFrameTime (newTime - systemTime st) ->
     0 <= accumulatedTime st').
Proof.
  intros Hpos Hacc Hfuel.
  pose proof (frameFuel_enough _ _ Hpos Hfuel) as Henough.
  pose proof (clampFrameTime_le (newTime - systemTime st)) as Hclamp.
  destruct (drain_terminates fuel (accumulate st newTime) 0%Z) as [[[st2 n2] updates] D].
  { exact Hpos. }
  { cbn. lra. }
  assert (F : exists st' evs, frame fuel st newTime = Some (st', evs)).
  { unfold frame. rewrite D.
    destruct (drawStep st2) as [st3 drawn]. destruct (sleepStep st3) as [st4 slept].
    eexists _, _. reflexivity. }
  destruct F as (st' & evs & F).
  exists st', evs. split; [exact F |].
  destruct (frame_inversion _ _ _ _ _ F) as (st2' & n2' & updates' & D' & -> & -> & Hcnt).
  rewrite D in D'. injection D' as <- <- <-.
  rewrite Hcnt.
  destruct (drain_inv _ _ _ _ _ _ D) as (Hc & Hs & Hsim & Hac & Hlt & Hnn & _).
  cbn in Hc, Hs, Hsim, Hac, Hlt |- *.
  repeat split; try assumption.
  intros H0. destruct updates as [| u updates].
  - change (inject_Z (Z.of_nat (length []))) with 0 in Hac. lra.
  - apply Hnn. discriminate.
Qed.

(** What a frame keeps: the members of the client other than the flag, and
    less than a period in the accumulator. *)
Lemma frame_keeps (fuel : nat) (st : LoopState G) (newTime : Time) st' evs :
  frame fuel st newTime = Some (st', evs) ->
  config (this st') = config (this st) /\
  systemTime st' = newTime /\
  accumulatedTime st' < mUpdateFrequency (this st').
Proof.
  intros F.
  destruct (frame_inversion _ _ _ _ _ F) as (st2 & n2 & updates & D & -> & _ & _).
  destruct (drain_inv _ _ _ _ _ _ D) as (Hc & Hs & _ & _ & Hlt & _).
  destruct (config_fields _ _ Hc) as (_ & _ & _ & Hp & _).
  cbn in Hc, Hs, Hp, Hlt |- *. rewrite Hp.
  repeat split; assumption.
Qed.

(** The two ways in which the outer loop, with a clock reading at hand,
    returns: it was not running, or it ran a frame and went on. *)
Lemma frames_cons_inversion (fuel : nat) (st : LoopState G) (newTime : Time)
      (clock : list Time) st' evs :
  frames fuel st (newTime :: clock) = Some (st', evs) ->
  (mIsGameRunning (this st) = false /\ st' = st /\ evs = []) \/
  (exists st1 evs1 evs2,
      frame fuel st newTime = Some (st1, evs1) /\
      frames fuel st1 clock = Some (st', evs2) /\
      evs = evs1 ++ evs2).
Proof.
  cbn [frames]. intros F.
  destruct (mIsGameRunning (this st)).
  - right.
    destruct (frame fuel st newTime) as [[st1 evs1] |]; [| discriminate].
    destruct (frames fuel st1 clock) as [[st2 evs2] |] eqn:F2; [| discriminate].
    injection F as <- <-. exists st1, evs1, evs2.
    split; [reflexivity |]. split; [exact F2 | reflexivity].
  - left. injection F as <- <-. repeat split.
Qed.

Lemma Qfloor_unique (x : Q) (k : Z) :
  inject_Z k <= x -> x < inject_Z (k + 1) -> Qfloor x = k.
Proof.
  intros Hlo Hhi.
  pose proof (Qfloor_le x) as Hfl.
  pose proof (Qlt_floor x) as Hfh.
  assert (H1 : (k < Qfloor x + 1)%Z).
  { rewrite Zlt_Qlt. lra. }
  assert (H2 : (Qfloor x < k + 1)%Z).
  { rewrite Zlt_Qlt. lra. }
  lia.
Qed.

(** The outer loop over a whole clock: it returns, the period and the running
    flag are kept, and simulation time has advanced by one period per update.
    When no frame time is negative or above the clamp, simulation time and
    accumulator together hold exactly the time that has passed. *)
Lemma frames_run (fuel : nat) (clock : list Time) :
  forall st : LoopState G,
    0 < mUpdateFrequency (this st) ->
    accumulatedTime st < mUpdateFrequency (this st) ->
    mIsGameRunning (this st) = true ->
    (frameFuel (mUpdateFrequency (this st)) <= fuel)%nat ->
    exists st' evs,
      frames fuel st clock = Some (st', evs) /\
      config (this st') = config (this st) /\
      simulationTime st' ==
        simulationTime st
        + inject_Z (Z.of_nat (countUpdates evs)) * mUpdateFrequency (this st) /\
      accumulatedTime st' < mUpdateFrequency (this st) /\
      (0 <= accumulatedTime st ->
       Forall (fun ft => 0 <= ft /\ ft <= 0.25) (frameTimes (systemTime st) clock) ->
       0 <= accumulatedTime st' /\
       simulationTime st' + accumulatedTime st' ==
         simulationTime st + accumulatedTime st
         + sumTimes (frameTimes (systemTime st) clock)).
Proof.
  induction clock as [| newTime clock IH]; intros st Hpos Hacc Hrun Hfuel.
  - exists st, []. cbn.
    change (inject_Z 0) with 0.
    repeat split; try reflexivity; try assumption; lra.
  - cbn [frames]. rewrite Hrun.
    destruct (frame_step fuel st newTime Hpos Hacc Hfuel)
      as (st1 & evs1 & F & Hc & Hsys & Hsim & Hac & Hlt & Hnn).
    rewrite F.
    destruct (config_fields _ _ Hc) as (_ & _ & Hr & Hp & _).
    destruct (IH st1) as (st' & evs' & F' & Hc' & Hsim' & Hlt' & Hrest).
    { rewrite Hp. exact Hpos. }
    { rewrite Hp. exact Hlt. }
    { rewrite Hr. exact Hrun. }
    { rewrite Hp. exact Hfuel. }
    rewrite F'. exists st', (evs1 ++ evs').
    rewrite Hp in Hsim', Hlt'.
    split; [reflexivity |].
    split; [congruence |].
    split.
    { rewrite countUpdates_app, Nat2Z.inj_add, inject_Z_plus.
      rewrite Hsim', Hsim. ring. }
    split; [exact Hlt' |].
    intros H0 Hall. cbn [frameTimes] in Hall.
    apply Forall_cons_iff in Hall. destruct Hall as [[Hft0 Hft1] Hall].
    rewrite (clampFrameTime_below _ Hft1) in Hac, Hnn.
    rewrite Hsys in Hrest.
    destruct (Hrest (Hnn ltac:(lra)) Hall) as [Hnn' Hsum].
    split; [exact Hnn' |].
    cbn [frameTimes sumTimes fold_right].
    fold (sumTimes (frameTimes newTime clock)).
    rewrite Hsum, Hsim, Hac. ring.
Qed.

Lemma runMainGameLoop_frames (fuel : nat) (c : GameClient) (g : G)
      (now : Time) (clock : list Time) st evs :
  frames fuel (mkLoopState (set_mIsGameRunning c true) g 0 0 now) clock = Some (st, evs) ->
  runMainGameLoop fuel c g now clock
  = Some (EPROGRAM_OK, st, EvEnterMainLoop :: evs ++ [EvLeaveMainLoop]) /\
  countUpdates (EvEnterMainLoop :: evs ++ [EvLeaveMainLoop]) = countUpdates evs.
Proof.
  intros F. unfold runMainGameLoop. rewrite F. split; [reflexivity |].
  change (countUpdates (EvEnterMainLoop :: evs ++ [EvLeaveMainLoop]))
    with (countUpdates (evs ++ [EvLeaveMainLoop])).
  rewrite countUpdates_app. cbn. apply Nat.add_0_r.
Qed.

(** C2.  For every clock whose frame times are each between zero and a
    quarter of a second and sum to T, and every positive update period P, the
    main loop returns, the number of [update] calls of the whole run is
    floor(T/P), and simulation time at the end is that number times P. *)
Theorem update_count_is_floor (fuel : nat) (c : GameClient) (g : G)
        (now : Time) (clock : list Time) :
  0 < mUpdateFrequency c ->
  Forall (fun ft => 0 <= ft /\ ft <= 0.25) (frameTimes now clock) ->
  (frameFuel (mUpdateFrequency c) <= fuel)%nat ->
  exists st evs,
    runMainGameLoop fuel c g now clock = Some (EPROGRAM_OK, st, evs) /\
    Z.of_nat (countUpdates evs)
    = Qfloor (sumTimes (frameTimes now clock) / mUpdateFrequency c) /\
    simulationTime st == inject_Z (Z.of_nat (countUpdates evs)) * mUpdateFrequency c.
Proof.
  intros Hpos Hall Hfuel.
  destruct (frames_run fuel clock (mkLoopState (set_mIsGameRunning c true) g 0 0 now))
    as (st & evs & F & _ & Hsim & Hlt & Hrest); try assumption; try reflexivity.
  cbn in Hsim, Hlt, Hrest.
  destruct (Hrest ltac:(lra) Hall) as [Hnn Hsum].
  destruct (runMainGameLoop_frames _ _ _ _ _ _ _ F) as [R Hcnt].
  eexists _, _. split; [exact R |].
  rewrite Hcnt.
  set (k := Z.of_nat (countUpdates evs)) in *.
  set (T := sumTimes (frameTimes now clock)) in *.
  set (P := mUpdateFrequency c) in *.
  split.
  - symmetry. apply Qfloor_unique.
    + apply Qle_shift_div_l; [exact Hpos | lra].
    + apply Qlt_shift_div_r; [exact Hpos |].
      rewrite inject_Z_plus. change (inject_Z 1) with 1. lra.
  - lra.
Qed.

Lemma drain_only_updates (fuel : nat) :
  forall (st : LoopState G) (n : Z) st' n' evs,
    drain fuel st n = Some (st', n', evs) ->
    Forall (fun e => isUpdate e = true) evs.
Proof.
  induction fuel as [| fuel IH]; intros st n st' n' evs H; cbn in H.
  - destruct (Time_ge _ _); [discriminate |].
    injection H as <- <- <-. constructor.
  - destruct (Time_ge _ _).
    + destruct (drain fuel _ _) as [[[st2 n2] evs2] |] eqn:D; [| discriminate].
      injection H as <- <- <-.
      constructor; [reflexivity | exact (IH _ _ _ _ _ D)].
    + injection H as <- <- <-. constructor.
Qed.

(** The only draw of a frame is the one made on the state that the inner
    loop left. *)
Lemma frame_draw (fuel : nat) (st : LoopState G) (newTime : Time) st' evs c t i :
  frame fuel st newTime = Some (st', evs) ->
  In (EvDraw c t i) evs ->
  exists st2 n2 updates,
    drain fuel (accumulate st newTime) 0%Z = Some (st2, n2, updates) /\
    countUpdates evs = length updates /\
    accumulatedTime st' = accumulatedTime st2 /\
    this st' = this st2 /\
    c = this st2 /\ t = simulationTime st2 /\ i = interpolationOf st2.
Proof.
  intros F Hin.
  destruct (frame_inversion _ _ _ _ _ F) as (st2 & n2 & updates & D & -> & -> & Hcnt).
  exists st2, n2, updates.
  repeat (split; [first [exact D | exact Hcnt | reflexivity] |]).
  destruct Hin as [Hin | Hin]; [discriminate |].
  apply in_app_or in Hin. destruct Hin as [Hin | Hin].
  - pose proof (drain_only_updates _ _ _ _ _ _ D) as Hall.
    rewrite Forall_forall in Hall. apply Hall in Hin. discriminate.
  - unfold frameTail in Hin. cbn in Hin.
    destruct Hin as [Hin | [Hin | Hin]].
    + injection Hin as <- <- <-. repeat split.
    + discriminate.
    + destruct (Time_lt _ _); cbn in Hin; [destruct Hin as [Hin | []] |]; 
        [discriminate | contradiction].
Qed.

Lemma interpolation_range (st : LoopState G) :
  0 < mUpdateFrequency (this st) ->
  0 <= accumulatedTime st ->
  accumulatedTime st < mUpdateFrequency (this st) ->
  0 < interpolationOf st /\ interpolationOf st <= 1.
Proof.
  intros Hpos Hnn Hlt. unfold interpolationOf, toDouble.
  assert (H0 : 0 <= accumulatedTime st / mUpdateFrequency (this st)).
  { apply Qle_shift_div_l; [exact Hpos | lra]. }
  assert (H1 : accumulatedTime st / mUpdateFrequency (this st) < 1).
  { apply Qlt_shift_div_r; [exact Hpos | lra]. }
  split; lra.
Qed.

Lemma clampFrameTime_nonneg (ft : Time) : 0 <= ft -> 0 <= clampFrameTime ft.
Proof.
  intros H. unfold clampFrameTime. destruct (Time_gt ft 0.25); lra.
Qed.

(** A frame entered with a non-negative accumulator, on a clock that does not
    run backwards, draws with an interpolation in (0, 1]. *)
Lemma frame_interpolation (fuel : nat) (st : LoopState G) (newTime : Time) st' evs :
  frame fuel st newTime = Some (st', evs) ->
  0 < mUpdateFrequency (this st) ->
  0 <= accumulatedTime st ->
  systemTime st <= newTime ->
  0 <= accumulatedTime st' /\
  forall c t i, In (EvDraw c t i) evs -> 0 < i /\ i <= 1.
Proof.
  intros F Hpos Hnn Hclock.
  destruct (frame_inversion _ _ _ _ _ F) as (st2 & n2 & updates & D & Hst' & _ & _).
  destruct (drain_inv _ _ _ _ _ _ D) as (Hc & _ & _ & Hac & Hlt & Hnn2 & _).
  destruct (config_fields _ _ Hc) as (_ & _ & _ & Hp & _).
  cbn in Hac, Hlt, Hp, Hnn2.
  pose proof (clampFrameTime_nonneg (newTime - systemTime st) ltac:(lra)) as Hcl.
  assert (H2 : 0 <= accumulatedTime st2).
  { destruct updates as [| u updates].
    - change (inject_Z (Z.of_nat (length []))) with 0 in Hac. lra.
    - apply Hnn2. discriminate. }
  split; [rewrite Hst'; exact H2 |].
  intros c t i Hin.
  destruct (frame_draw _ _ _ _ _ _ _ _ F Hin)
    as (st2' & n2' & updates' & D' & _ & _ & _ & _ & _ & ->).
  rewrite D in D'. injection D' as <- <- <-.
  apply interpolation_range; rewrite ?Hp; assumption.
Qed.



(** C4.  In every frame the measured frame time, when above a quarter of a
    second, is replaced by exactly a quarter of a second before it is added
    to the accumulator; what is added is never more than that.  The frame
    accounts for exactly the clamped sample: the accumulator it leaves, plus
    one period for each update it made, is the accumulator it found plus the
    clamped frame time, so that the accumulator at the end of the frame is
    at most a quarter of a second above its value at the start. *)
Theorem frame_time_is_clamped (fuel : nat) (st : LoopState G) (newTime : Time) st' evs :
  frame fuel st newTime = Some (st', evs) ->
  (0.25 < newTime - systemTime st ->
   clampFrameTime (newTime - systemTime st) = 0.25) /\
  (newTime - systemTime st <= 0.25 ->
   clampFrameTime (newTime - systemTime st) = newTime - systemTime st) /\
  accumulatedTime (accumulate st newTime)
  = accumulatedTime st + clampFrameTime (newTime - systemTime st) /\
  accumulatedTime (accumulate st newTime) <= accumulatedTime st + 0.25 /\
  accumulatedTime st' <= accumulatedTime st + 0.25 /\
  accumulatedTime st'
  + inject_Z (Z.of_nat (countUpdates evs)) * mUpdateFrequency (this st)
  == accumulatedTime st + clampFrameTime (newTime - systemTime st) /\
  (0.25 < newTime - systemTime st ->
   accumulatedTime st'
   + inject_Z (Z.of_nat (countUpdates evs)) * mUpdateFrequency (this st)
   == accumulatedTime st + 0.25) /\
  simulationTime st'
  == simulationTime st
     + inject_Z (Z.of_nat (countUpdates evs)) * mUpdateFrequency (this st) /\
  accumulatedTime st' < mUpdateFrequency (this st) /\
  systemTime st' = newTime.
Proof.
  intros F.
  pose proof (clampFrameTime_le (newTime - systemTime st)) as Hcl.
  split; [apply clampFrameTime_above |].
  split; [apply clampFrameTime_below |].
  split; [reflexivity |].
  split; [cbn; lra |].
  destruct (frame_inversion _ _ _ _ _ F) as (st2 & n2 & updates & D & -> & _ & Hcnt).
  destruct (drain_inv _ _ _ _ _ _ D) as (_ & Hsys & Hsim & Hac & Hlt & Hnn & _).
  rewrite Hcnt.
  cbn in Hac, Hlt, Hnn, Hsim, Hsys |- *.
  assert (Hgrow : accumulatedTime st2 <= accumulatedTime st + 0.25).
  { destruct updates as [| u updates].
    - change (inject_Z (Z.of_nat (length []))) with 0 in Hac. lra.
    - pose proof (Hnn ltac:(discriminate)) as H0.
      assert (Hk : 0 <= inject_Z (Z.of_nat (length (u :: updates)))).
      { change 0 with (inject_Z 0). rewrite <- Zle_Qle. lia. }
      assert (Hprod : 0 <= inject_Z (Z.of_nat (length (u :: updates)))
                           * mUpdateFrequency (this st)).
      { apply Qmult_le_0_compat; [exact Hk | lra]. }
      lra. }
  split; [exact Hgrow |].
  split; [rewrite Hac; ring |].
  split.
  { intros Hbig. rewrite (clampFrameTime_above _ Hbig) in Hac. rewrite Hac. ring. }
  split; [exact Hsim |].
  split; [exact Hlt | exact Hsys].
Qed.

(** With a period of at least [minPeriod], a frame entered with less than a
    period in the accumulator makes at most [2 ^ 64] updates. *)
Lemma frame_updates_bounded (fuel : nat) (st st2 : LoopState G) (newTime : Time)
      (n2 : Z) (updates : list Event) :
  drain fuel (accumulate st newTime) 0%Z = Some (st2, n2, updates) ->
  minPeriod <= mUpdateFrequency (this st) ->
  accumulatedTime st < mUpdateFrequency (this st) ->
  (Z.of_nat (length updates) <= SIZE_MODULUS)%Z.
Proof.
  intros D Hmin Hacc.
  destruct (drain_inv _ _ _ _ _ _ D) as (_ & _ & _ & Hac & _ & Hnn & _).
  cbn in Hac, Hnn.
  pose proof (clampFrameTime_le (newTime - systemTime st)) as Hcl.
  destruct updates as [| u updates]; [cbn; lia |].
  pose proof (Hnn ltac:(discriminate)) as H0.
  set (len := Z.of_nat (length (u :: updates))) in *.
  destruct (Z_lt_le_dec (len - 1) SIZE_MODULUS) as [Hlt | Hge]; [lia |].
  exfalso.
  assert (Hpos : 0 < mUpdateFrequency (this st)).
  { unfold minPeriod in Hmin.
    apply Qlt_le_trans with (y := 1 # 2 ^ 66); [reflexivity | exact Hmin]. }
  assert (Hk : inject_Z SIZE_MODULUS <= inject_Z len - 1).
  { change 1 with (inject_Z 1). unfold Qminus. rewrite <- inject_Z_opp, <- inject_Z_plus.
    rewrite <- Zle_Qle. lia. }
  assert (H1 : inject_Z SIZE_MODULUS * mUpdateFrequency (this st)
               <= (inject_Z len - 1) * mUpdateFrequency (this st)).
  { apply Qmult_le_compat_r; [exact Hk | lra]. }
  assert (H2 : inject_Z SIZE_MODULUS * minPeriod
               <= inject_Z SIZE_MODULUS * mUpdateFrequency (this st)).
  { apply Qmult_le_l; [reflexivity | exact Hmin]. }
  assert (H3 : inject_Z SIZE_MODULUS * minPeriod == 0.25) by reflexivity.
  lra.
Qed.

(** Frames that return keep the period and leave less than a period in the
    accumulator. *)
Lemma frames_invariant (fuel : nat) (clock : list Time) :
  forall (st : LoopState G) st' evs,
    frames fuel st clock = Some (st', evs) ->
    accumulatedTime st < mUpdateFrequency (this st) ->
    config (this st') = config (this st) /\
    accumulatedTime st' < mUpdateFrequency (this st').
Proof.
  induction clock as [| newTime clock IH]; intros st st' evs F Hacc.
  - injection F as <- <-. split; [reflexivity | exact Hacc].
  - apply frames_cons_inversion in F.
    destruct F as [(_ & -> & _) | (st1 & evs1 & evs2 & F1 & F2 & _)];
      [split; [reflexivity | exact Hacc] |].
    destruct (frame_keeps _ _ _ _ _ F1) as (Hc & _ & Hlt).
    destruct (IH st1 _ _ F2 Hlt) as [Hc2 Hlt2].
    split; [congruence | exact Hlt2].
Qed.

(** C6 (amended).  In every frame of the main loop that makes at least one
    update step, the "is running slowly" flag seen by that frame's [draw] is
    true if and only if the frame made more than one update step; in a frame
    that makes no update step the flag is the one the previous frame left.
    (For a period of at least [minPeriod], below which the step counter of a
    frame could wrap around.) *)
Theorem slow_flag_at_draw (fuel : nat) (c : GameClient) (g : G) (now : Time)
        (clock : list Time) (newTime : Time) st evs0 st' evs c' t i :
  minPeriod <= mUpdateFrequency c ->
  frames fuel (mkLoopState (set_mIsGameRunning c true) g 0 0 now) clock
  = Some (st, evs0) ->
  frame fuel st newTime = Some (st', evs) ->
  In (EvDraw c' t i) evs ->
  mIsRunningSlowly (this st') = mIsRunningSlowly c' /\
  ((1 <= countUpdates evs)%nat ->
   (mIsRunningSlowly c' = true <-> (1 < countUpdates evs)%nat)) /\
  (countUpdates evs = 0%nat ->
   mIsRunningSlowly c' = mIsRunningSlowly (this st)).
Proof.
  intros Hmin F0 F Hin.
  assert (Hpos : 0 < mUpdateFrequency c).
  { apply Qlt_le_trans with (y := minPeriod); [reflexivity | exact Hmin]. }
  destruct (frames_invariant _ _ _ _ _ F0 Hpos) as [Hc0 Hacc].
  destruct (config_fields _ _ Hc0) as (_ & _ & _ & Hp0 & _).
  cbn in Hp0. rewrite <- Hp0 in Hmin.
  destruct (frame_draw _ _ _ _ _ _ _ _ F Hin)
    as (st2 & n2 & updates & D & Hcnt & _ & Hthis & -> & _ & _).
  rewrite Hcnt, Hthis.
  pose proof (frame_updates_bounded _ _ _ _ _ _ D Hmin Hacc) as Hbound.
  destruct (drain_flag _ _ _ _ _ _ D) as [Hnil Hcons]; [unfold SIZE_MODULUS; lia |].
  split; [reflexivity |].
  split.
  - intros Hk.
    rewrite Hcons by (destruct updates; [cbn in Hk; lia | discriminate]).
    rewrite Z.mod_small by lia.
    rewrite Z.ltb_lt. lia.
  - intros Hk. apply length_zero_iff_nil in Hk.
    rewrite (Hnil Hk). reflexivity.
Qed.

Lemma filter_updates_id (evs : list Event) :
  Forall (fun e => isUpdate e = true) evs ->
  filter (fun e => negb (isSleep e)) evs = evs.
Proof.
  induction 1 as [| e evs He _ IH]; [reflexivity |].
  cbn. destruct e; try discriminate. cbn. rewrite IH. reflexivity.
Qed.

Lemma frame_withoutSleeps (fuel : nat) (st : LoopState G) (newTime : Time) :
  frameSkippingSleep fuel st newTime = withoutSleeps (frame fuel st newTime).
Proof.
  unfold frameSkippingSleep, frame.
  destruct (drain fuel (accumulate st newTime) 0%Z) as [[[st2 n2] updates] |] eqn:D;
    [| reflexivity].
  pose proof (filter_updates_id _ (drain_only_updates _ _ _ _ _ _ D)) as Hid.
  unfold drawStep, sleepStep. cbn.
  destruct (Time_lt _ _); cbn; rewrite filter_app, Hid; reflexivity.
Qed.

Lemma frames_withoutSleeps (fuel : nat) (clock : list Time) :
  forall st : LoopState G,
    framesSkippingSleep fuel st clock = withoutSleeps (frames fuel st clock).
Proof.
  induction clock as [| newTime clock IH]; intros st; cbn [framesSkippingSleep frames].
  - reflexivity.
  - destruct (mIsGameRunning (this st)); [| reflexivity].
    rewrite frame_withoutSleeps.
    destruct (frame fuel st newTime) as [[st1 evs1] |]; [| reflexivity].
    cbn [withoutSleeps]. rewrite IH.
    destruct (frames fuel st1 clock) as [[st2 evs2] |]; [| reflexivity].
    cbn [withoutSleeps]. rewrite filter_app. reflexivity.
Qed.

Lemma frame_sleeps (fuel : nat) (st : LoopState G) (newTime : Time) st' evs :
  frame fuel st newTime = Some (st', evs) ->
  (exists d, In (EvSleep d) evs) <->
  accumulatedTime st' + mMaximumSleepSkew (this st') < mUpdateFrequency (this st').
Proof.
  intros F.
  destruct (frame_inversion _ _ _ _ _ F) as (st2 & n2 & updates & D & -> & -> & _).
  pose proof (drain_only_updates _ _ _ _ _ _ D) as Hall.
  rewrite Forall_forall in Hall.
  cbn [this accumulatedTime]. rewrite <- Time_lt_true.
  unfold frameTail.
  destruct (Time_lt _ _); split; intros H; try reflexivity.
  - exists 2.0. right. apply in_or_app. right. cbn. auto.
  - destruct H as [d [H | H]]; [discriminate |].
    apply in_app_or in H. destruct H as [H | H].
    + apply Hall in H. discriminate.
    + cbn in H. destruct H as [H | [H | []]]; discriminate.
  - discriminate.
Qed.

(** C9.  At the end of every frame the sleep is called if and only if
    [accumulatedTime + mMaximumSleepSkew < mUpdateFrequency]; the sleep step
    returns the state it was given, and a frame, and a whole loop, run with
    the sleep skipped end in the same state (simulation time, accumulator,
    flag) with the same trace but for the sleep events, so with the same
    update calls. *)
Theorem sleep_is_transparent (fuel : nat) (st : LoopState G) (newTime : Time)
        (clock : list Time) :
  fst (sleepStep st) = st /\
  (forall st' evs,
      frame fuel st newTime = Some (st', evs) ->
      ((exists d, In (EvSleep d) evs) <->
       accumulatedTime st' + mMaximumSleepSkew (this st') < mUpdateFrequency (this st'))) /\
  frameSkippingSleep fuel st newTime = withoutSleeps (frame fuel st newTime) /\
  framesSkippingSleep fuel st clock = withoutSleeps (frames fuel st clock) /\
  (forall st' evs,
      frames fuel st clock = Some (st', evs) ->
      filter isUpdate (filter (fun e => negb (isSleep e)) evs) = filter isUpdate evs).
Proof.
  split; [unfold sleepStep; destruct (Time_lt _ _); reflexivity |].
  split; [intros st' evs F; exact (frame_sleeps _ _ _ _ _ F) |].
  split; [apply frame_withoutSleeps |].
  split; [apply frames_withoutSleeps |].
  intros st' evs _. clear.
  induction evs as [| e evs IH]; [reflexivity |].
  destruct e; cbn; rewrite ?IH; reflexivity.
Qed.

(** The [present] of a frame is called through the renderer member of the
    client. *)
Lemma frame_present (fuel : nat) (st : LoopState G) (newTime : Time) st' evs p :
  frame fuel st newTime = Some (st', evs) ->
  In (EvPresent p) evs ->
  p = mpRenderer (this st).
Proof.
  intros F Hin.
  destruct (frame_inversion _ _ _ _ _ F) as (st2 & n2 & updates & D & _ & -> & _).
  destruct (drain_inv _ _ _ _ _ _ D) as (Hc & _).
  destruct (config_fields _ _ Hc) as (_ & Hr & _). cbn in Hr.
  pose proof (drain_only_updates _ _ _ _ _ _ D) as Hall.
  rewrite Forall_forall in Hall.
  destruct Hin as [Hin | Hin]; [discriminate |].
  apply in_app_or in Hin. destruct Hin as [Hin | Hin].
  - apply Hall in Hin. discriminate.
  - unfold frameTail in Hin. cbn in Hin.
    destruct Hin as [Hin | [Hin | Hin]].
    + discriminate.
    + injection Hin as <-. exact Hr.
    + destruct (Time_lt _ _); cbn in Hin;
        [destruct Hin as [Hin | []]; discriminate | contradiction].
Qed.

Lemma frames_present (fuel : nat) (clock : list Time) :
  forall (st : LoopState G) st' evs p,
    frames fuel st clock = Some (st', evs) ->
    In (EvPresent p) evs ->
    p = mpRenderer (this st).
Proof.
  induction clock as [| newTime clock IH]; intros st st' evs p F Hin.
  - injection F as <- <-. destruct Hin.
  - apply frames_cons_inversion in F.
    destruct F as [(_ & _ & ->) | (st1 & evs1 & evs2 & F1 & F2 & ->)]; [destruct Hin |].
    apply in_app_or in Hin. destruct Hin as [Hin | Hin].
    + exact (frame_present _ _ _ _ _ _ F1 Hin).
    + destruct (frame_keeps _ _ _ _ _ F1) as (Hc & _).
      destruct (config_fields _ _ Hc) as (_ & Hr & _).
      rewrite (IH st1 _ _ p F2 Hin). exact Hr.
Qed.

(** C1 (what the code does).  For a non-null window [w] and a non-null
    renderer [r] the constructor succeeds, but the client it builds holds
    [NULL] as its renderer, not [r]; every [present] of its main loop is
    called through that null member. *)
Theorem GameClient_ctor_drops_renderer (w r : nat) :
  exists c,
    GameClient_ctor (Addr w) (Addr r) = Ok c /\
    mpMainWindow c = Addr w /\
    mpRenderer c = NULL /\
    mpRenderer c <> Addr r /\
    forall fuel (g : G) now clock st evs p,
      runMainGameLoop fuel c g now clock = Some (EPROGRAM_OK, st, evs) ->
      In (EvPresent p) evs ->
      p = NULL.
Proof.
  eexists. split; [reflexivity |]. cbn.
  repeat (split; [first [reflexivity | discriminate] |]).
  intros fuel g now clock st evs p R Hin.
  unfold runMainGameLoop in R.
  destruct (frames fuel _ clock) as [[st1 evs1] |] eqn:F; [| discriminate].
  injection R as <- <-.
  destruct Hin as [Hin | Hin]; [discriminate |].
  apply in_app_or in Hin. destruct Hin as [Hin | [Hin | []]]; [| discriminate].
  exact (frames_present _ _ _ _ _ _ F Hin).
Qed.

(** C5.  [run()] returns the fatal-error status without calling
    [loadContent()] when [initializeClient()] or [initialize()] returns
    false, and without entering the main loop when [loadContent()] returns
    false; when the three succeed the main loop is entered and, with a
    positive period, returns, after which [unloadContent()] is called and the
    status is success.  In every run that returns, [unloadContent()] is
    called if and only if the main loop was entered, and that is when the
    status is success. *)
Theorem run_lifecycle (fuel : nat) (c : GameClient) (g : G) (now : Time)
        (clock : list Time) :
  let i1 := initializeClient g in
  let i2 := initialize (snd i1) in
  let l := loadContent (snd i2) in
  let w := mpMainWindow c in
  (fst i1 = false ->
   run fuel c g now clock
   = Some (EPROGRAM_FATAL_ERROR, c, snd i1, [EvShow w; EvInitializeClient])) /\
  (fst i1 = true -> fst i2 = false ->
   run fuel c g now clock
   = Some (EPROGRAM_FATAL_ERROR, c, snd i2,
           [EvShow w; EvInitializeClient; EvInitialize])) /\
  (fst i1 = true -> fst i2 = true -> fst l = false ->
   run fuel c g now clock
   = Some (EPROGRAM_FATAL_ERROR, c, snd l,
           [EvShow w; EvInitializeClient; EvInitialize; EvLoadContent])) /\
  (fst i1 = true -> fst i2 = true -> fst l = true ->
   0 < mUpdateFrequency c -> (frameFuel (mUpdateFrequency c) <= fuel)%nat ->
   exists st body,
     runMainGameLoop fuel c (snd l) now clock = Some (EPROGRAM_OK, st, body) /\
     run fuel c g now clock
     = Some (EPROGRAM_OK, this st, unloadContent (game st),
             [EvShow w; EvInitializeClient; EvInitialize; EvLoadContent]
               ++ body ++ [EvUnloadContent])) /\
  (forall status c' g' evs,
      run fuel c g now clock = Some (status, c', g', evs) ->
      (In EvUnloadContent evs <-> In EvEnterMainLoop evs) /\
      (status = EPROGRAM_OK <-> In EvEnterMainLoop evs) /\
      (status = EPROGRAM_FATAL_ERROR <-> ~ In EvEnterMainLoop evs) /\
      (In EvLoadContent evs -> fst i1 = true /\ fst i2 = true) /\
      (In EvEnterMainLoop evs -> fst l = true)).
Proof.
  unfold run. cbn zeta.
  destruct (initializeClient g) as [ok1 g1]. cbn [fst snd].
  destruct (initialize g1) as [ok2 g2]. cbn [fst snd].
  destruct (loadContent g2) as [ok3 g3]. cbn [fst snd].
  split; [intros ->; reflexivity |].
  split; [intros -> ->; reflexivity |].
  split; [intros -> -> ->; reflexivity |].
  split.
  - intros -> -> -> Hpos Hfuel. cbn [negb].
    destruct (frames_run fuel clock (mkLoopState (set_mIsGameRunning c true) g3 0 0 now))
      as (st & evs & F & _); try assumption; try reflexivity.
    destruct (runMainGameLoop_frames _ _ _ _ _ _ _ F) as [R _].
    rewrite R. eexists _, _. split; reflexivity.
  - intros status c' g' evs R.
    destruct ok1; cbn [negb] in R;
      [| injection R as <- <- <- <-; cbn;
         intuition (try discriminate; try congruence)].
    destruct ok2; cbn [negb] in R;
      [| injection R as <- <- <- <-; cbn;
         intuition (try discriminate; try congruence)].
    destruct ok3; cbn [negb] in R;
      [| injection R as <- <- <- <-; cbn;
         intuition (try discriminate; try congruence)].
    unfold runMainGameLoop in R.
    destruct (frames fuel _ clock) as [[st evs1] |]; [| discriminate].
    injection R as <- <- <- <-.
    assert (Henter : In EvEnterMainLoop
                        (([EvShow (mpMainWindow c)]
                            ++ [EvInitializeClient; EvInitialize; EvLoadContent])
                           ++ (EvEnterMainLoop :: evs1 ++ [EvLeaveMainLoop])
                           ++ [EvUnloadContent])).
    { apply in_or_app. right. left. reflexivity. }
    assert (Hunload : In EvUnloadContent
                        (([EvShow (mpMainWindow c)]
                            ++ [EvInitializeClient; EvInitialize; EvLoadContent])
                           ++ (EvEnterMainLoop :: evs1 ++ [EvLeaveMainLoop])
                           ++ [EvUnloadContent])).
    { apply in_or_app. right. apply in_or_app. right. left. reflexivity. }
    repeat split; auto; try discriminate; intros; try contradiction.
Qed.

(** C7 (amended).  For every n > 0, [setUpdateFrequency(n)] succeeds and
    sets the update period to the [double] quotient 1.0 / n, that is 1/n
    seconds rounded to the nearest [double]: within a relative error of
    2^-53 of 1/n, and exactly 1/n when n is a power of two; every other
    member is left as it was.  For n <= 0 the assertion fails. *)
Theorem setUpdateFrequency_period (c : GameClient) (n : Z) :
  ((0 < n)%Z ->
   exists c',
     setUpdateFrequency c n = Ok c' /\
     mUpdateFrequency c' = double_div 1 (inject_Z n) /\
     - (1 # 2 ^ 53) <= mUpdateFrequency c' * inject_Z n - 1 /\
     mUpdateFrequency c' * inject_Z n - 1 <= 1 # 2 ^ 53 /\
     (forall k, (0 <= k <= 30)%Z -> n = (2 ^ k)%Z ->
                mUpdateFrequency c' == 1 / inject_Z n) /\
     mpMainWindow c' = mpMainWindow c /\
     mpRenderer c' = mpRenderer c /\
     mIsGameRunning c' = mIsGameRunning c /\
     mIsRunningSlowly c' = mIsRunningSlowly c /\
     mMaximumSleepSkew c' = mMaximumSleepSkew c) /\
  ((n <= 0)%Z -> setUpdateFrequency c n = AssertionFailure).
Proof.
  unfold setUpdateFrequency. split; intros Hn.
  - apply Z.ltb_lt in Hn as Hb. rewrite Hb.
    eexists. split; [reflexivity |].
    cbn [mUpdateFrequency mpMainWindow mpRenderer mIsGameRunning mIsRunningSlowly
         mMaximumSleepSkew set_mUpdateFrequency].
    unfold Time_of_seconds.
    destruct (double_div_1_error n Hn) as [Hlo Hhi].
    split; [reflexivity |].
    split; [exact Hlo |]. split; [exact Hhi |].
    split; [| repeat split].
    intros k Hk ->. apply double_div_1_pow2. exact Hk.
  - apply Z.ltb_ge in Hn. rewrite Hn. reflexivity.
Qed.

End LoopFacts.

(** * Worked runs *)

Section Runs.

Local Open Scope Q_scope.

(** The scenario of the specification: at 50 Hz, frame times of 0.05 s,
    0.01 s and 0.02 s give four updates in all. *)
Example scenario_50Hz :
  option_map (fun r => countUpdates (snd r))
             (runMainGameLoop 14 exampleClient tt 0 [0.05; 0.06; 0.08])
  = Some 4%nat.
Proof. vm_compute. reflexivity. Qed.

Example scenario_50Hz_per_frame :
  option_map (fun r => countUpdates (snd r)) (frame 14 exampleStart 0.05) = Some 2%nat.
Proof. vm_compute. reflexivity. Qed.

Example frameFuel_50Hz : frameFuel (mUpdateFrequency exampleClient) = 14%nat.
Proof. vm_compute. reflexivity. Qed.

(** A period of zero never drains the accumulator: no fuel is enough. *)
Example zero_period_diverges :
  frame 1000 (mkLoopState (set_mUpdateFrequency exampleClient 0) tt 0 0 0) 0.01 = None.
Proof. vm_compute. reflexivity. Qed.

Example run_base :
  option_map (fun r => (fst (fst (fst r)), countUpdates (snd r)))
             (run 14 exampleClient tt 0 [0.05; 0.06; 0.08])
  = Some (EPROGRAM_OK, 4%nat).
Proof. vm_compute. reflexivity. Qed.

Example run_failing_load :
  @run unit FailingLoad 14 exampleClient tt 0 [0.05]
  = Some (EPROGRAM_FATAL_ERROR, exampleClient, tt,
          [EvShow (Addr 1); EvInitializeClient; EvInitialize; EvLoadContent]).
Proof. reflexivity. Qed.

Example run_failing_initialize :
  @run unit FailingInitialize 14 exampleClient tt 0 [0.05]
  = Some (EPROGRAM_FATAL_ERROR, exampleClient, tt,
          [EvShow (Addr 1); EvInitializeClient; EvInitialize]).
Proof. reflexivity. Qed.

Example setUpdateFrequency_128 :
  exists c, setUpdateFrequency exampleClient 128 = Ok c /\ mUpdateFrequency c == 1 # 128.
Proof. eexists. split; [reflexivity | vm_compute; reflexivity]. Qed.

(** C7, as stated, fails: [setUpdateFrequency(60)] leaves the [double]
    nearest to 1/60, which is not 1/60. *)
Lemma setUpdateFrequency_60_inexact :
  exists c,
    setUpdateFrequency exampleClient 60 = Ok c /\
    mUpdateFrequency c == 4803839602528529 # 288230376151711744 /\
    ~ mUpdateFrequency c == 1 / inject_Z 60.
Proof.
  eexists. split; [reflexivity |].
  split; [vm_compute; reflexivity |].
  intros H. vm_compute in H. discriminate.
Qed.

Example exampleClient_period :
  mUpdateFrequency exampleClient == 5368709 # 268435456 /\
  mMaximumSleepSkew exampleClient == 5368709 # 536870912.
Proof. split; vm_compute; reflexivity. Qed.

Example setUpdateFrequency_0 : setUpdateFrequency exampleClient 0 = AssertionFailure.
Proof. reflexivity. Qed.

Example exampleClient_renderer : mpRenderer exampleClient = NULL.
Proof. reflexivity. Qed.

Lemma update_count_is_floor_witness :
  exists st evs,
    runMainGameLoop 14 exampleClient tt 0 [0.05; 0.06; 0.08]
    = Some (EPROGRAM_OK, st, evs) /\
    Z.of_nat (countUpdates evs)
    = Qfloor (sumTimes (frameTimes 0 [0.05; 0.06; 0.08]) / mUpdateFrequency exampleClient) /\
    simulationTime st
    == inject_Z (Z.of_nat (countUpdates evs)) * mUpdateFrequency exampleClient.
Proof.
  apply (@update_count_is_floor unit BaseHooks 14 exampleClient tt 0 [0.05; 0.06; 0.08]).
  - reflexivity.
  - repeat constructor; vm_compute; discriminate.
  - vm_compute. lia.
Defined.



Lemma frame_time_is_clamped_witness :
  exists st' evs,
    frame 14 exampleStart 1 = Some (st', evs) /\
    clampFrameTime (1 - systemTime exampleStart) = 0.25 /\
    accumulatedTime st' <= accumulatedTime exampleStart + 0.25 /\
    countUpdates evs = 12%nat /\
    accumulatedTime st'
    + inject_Z (Z.of_nat (countUpdates evs)) * mUpdateFrequency (this exampleStart)
    == accumulatedTime exampleStart + 0.25.
Proof.
  eexists _, _.
  split; [vm_compute; reflexivity |].
  match goal with
  | |- context [accumulatedTime ?s <= _] =>
      destruct (@frame_time_is_clamped unit BaseHooks 14 exampleStart 1 s _
                  ltac:(vm_compute; reflexivity))
        as (Ha & _ & _ & _ & Hb & _ & Hc & _)
  end.
  split; [apply Ha; reflexivity |].
  split; [exact Hb |].
  split; [reflexivity |].
  apply Hc. reflexivity.
Defined.

(** C6, as stated, fails: after a frame of two updates, a frame with no
    update is drawn with the flag still true. *)
Lemma slow_flag_without_update :
  exists st1 evs1 st2 evs2 c t i,
    frames 14 exampleStart [0.05] = Some (st1, evs1) /\
    frame 14 st1 0.055 = Some (st2, evs2) /\
    countUpdates evs2 = 0%nat /\
    In (EvDraw c t i) evs2 /\
    mIsRunningSlowly c = true /\
    ~ (mIsRunningSlowly c = true <-> (1 < countUpdates evs2)%nat).
Proof.
  eexists _, _, _, _, _, _, _.
  split; [vm_compute; reflexivity |].
  split; [vm_compute; reflexivity |].
  split; [reflexivity |].
  split; [right; left; reflexivity |].
  split; [reflexivity |].
  intros [H _]. specialize (H eq_refl). vm_compute in H. lia.
Qed.

Lemma slow_flag_at_draw_witness :
  exists st evs0 st' evs c t i,
    frames 14 exampleStart [0.01] = Some (st, evs0) /\
    frame 14 st 0.06 = Some (st', evs) /\
    In (EvDraw c t i) evs /\
    countUpdates evs = 3%nat /\
    mIsRunningSlowly c = true.
Proof.
  eexists _, _, _, _, _, _, _.
  split; [vm_compute; reflexivity |].
  split; [vm_compute; reflexivity |].
  split; [do 4 right; left; reflexivity |].
  split; [reflexivity |].
  match goal with
  | |- mIsRunningSlowly ?c = true =>
      destruct (@slow_flag_at_draw unit BaseHooks 14 exampleClient tt 0 [0.01] 0.06
                  _ _ _ _ c _ _
                  ltac:(vm_compute; discriminate)
                  ltac:(vm_compute; reflexivity)
                  ltac:(vm_compute; reflexivity)
                  ltac:(do 4 right; left; reflexivity)) as (_ & Hslow & _)
  end.
  apply Hslow; vm_compute; lia.
Defined.

End Runs.

(** * Further properties of [Point] *)

Section PointExtras.

Local Open Scope Z_scope.

Lemma in_range_cases (i : Z) :
  ((0 <=? i) && (i <? 3))%bool = true <-> i = 0 \/ i = 1 \/ i = 2.
Proof. rewrite andb_true_iff, Z.leb_le, Z.ltb_lt. lia. Qed.

Lemma out_of_range (i : Z) :
  ((0 <=? i) && (i <? 3))%bool = false <-> ~ 0 <= i < 3.
Proof. rewrite andb_false_iff, Z.leb_gt, Z.ltb_ge. lia. Qed.

Lemma eqb_components (p q : Point.t) :
  Point.eqb p q = true
  <-> Point.x p = Point.x q /\ Point.y p = Point.y q /\ Point.z p = Point.z q.
Proof. unfold Point.eqb. rewrite !andb_true_iff, !Z.eqb_eq. tauto. Qed.

(** X1.  [operator==] holds exactly between points with the same three
    components. *)
Theorem Point_eqb_eq (p q : Point.t) : Point.eqb p q = true <-> p = q.
Proof.
  rewrite eqb_components.
  destruct p as [px py pz], q as [qx qy qz]. cbn. split.
  - intros (-> & -> & ->). reflexivity.
  - intros H. injection H as -> -> ->. repeat split.
Qed.

(** X2.  [operator!=] is the negation of [operator==] on every pair of
    points. *)
Theorem Point_neqb_negb_eqb (p q : Point.t) : Point.neqb p q = negb (Point.eqb p q).
Proof.
  unfold Point.neqb, Point.eqb.
  destruct (Point.x p =? Point.x q), (Point.y p =? Point.y q),
    (Point.z p =? Point.z q); reflexivity.
Qed.

(** X3.  [isZero()] holds exactly of the default-constructed point, and
    agrees with comparing to it by [operator==]. *)
Theorem Point_isZero_iff (p : Point.t) :
  (Point.isZero p = true <-> p = Point.Point0) /\
  Point.isZero p = Point.eqb p Point.Point0.
Proof.
  split; [| reflexivity].
  change (Point.isZero p) with (Point.eqb p Point.Point0).
  rewrite eqb_components.
  destruct p as [px py pz]. cbn. split.
  - intros (-> & -> & ->). reflexivity.
  - intros H. injection H as -> -> ->. repeat split.
Qed.

(** X4.  A write through [operator[]] at an index in range is read back by
    [operator[]] at that index and leaves the reads at the other two indices
    as they were. *)
Theorem Point_store_index (p : Point.t) (i v : Z) :
  0 <= i < 3 ->
  exists p',
    Point.store p i v = Ok p' /\
    Point.index p' i = Ok v /\
    forall j, j <> i -> Point.index p' j = Point.index p j.
Proof.
  intros Hi. destruct p as [px py pz].
  assert (Hc : i = 0 \/ i = 1 \/ i = 2) by lia.
  destruct Hc as [-> | [-> | ->]]; eexists; (split; [reflexivity |]);
    (split; [reflexivity |]); intros j Hj; unfold Point.index;
    destruct ((0 <=? j) && (j <? 3))%bool eqn:E; try reflexivity;
    apply in_range_cases in E; destruct E as [-> | [-> | ->]];
    try reflexivity; contradiction.
Qed.

(** X5.  [operator[]] fails its assertion exactly outside 0..2, and two
    points with the same reads at every index are the same point. *)
Theorem Point_index_extensional (p q : Point.t) :
  (forall i, Point.index p i = AssertionFailure <-> ~ 0 <= i < 3) /\
  ((forall i, Point.index p i = Point.index q i) <-> p = q).
Proof.
  split.
  - intros i. unfold Point.index.
    destruct ((0 <=? i) && (i <? 3))%bool eqn:E.
    + apply in_range_cases in E.
      destruct E as [-> | [-> | ->]]; cbn; split; (discriminate || lia).
    + apply out_of_range in E. tauto.
  - split; [| intros ->; reflexivity].
    intros H. destruct p as [px py pz], q as [qx qy qz].
    pose proof (H 0) as H0. pose proof (H 1) as H1. pose proof (H 2) as H2.
    cbn in H0, H1, H2. congruence.
Qed.

(** X6.  The four-argument constructor fails its assertion exactly when the
    axis is outside 0..2. *)
Theorem Point4_fails_iff (uninit : Point.t) (axis a b c : Z) :
  Point.Point4 uninit axis a b c = AssertionFailure <-> ~ 0 <= axis < 3.
Proof.
  unfold Point.Point4.
  destruct ((0 <=? axis) && (axis <? 3))%bool eqn:E.
  - apply in_range_cases in E. destruct uninit as [ux uy uz].
    destruct E as [-> | [-> | ->]]; cbn; split; (discriminate || lia).
  - apply out_of_range in E. tauto.
Qed.

(** X7.  Axis 0 stores [(a, b, c)] as [(c, a, b)] and axis 1 as [(b, c, a)]:
    the two are inverse rotations, so building with one axis from the
    components of a point built with the other gives back [Point(a, b, c)]. *)
Theorem Point4_rotations (uninit : Point.t) (a b c : Z) :
  Point.Point4 uninit 0 a b c = Ok (Point.Point3 c a b) /\
  Point.Point4 uninit 1 a b c = Ok (Point.Point3 b c a) /\
  (forall p, Point.Point4 uninit 0 a b c = Ok p ->
             Point.Point4 uninit 1 (Point.x p) (Point.y p) (Point.z p)
             = Ok (Point.Point3 a b c)) /\
  (forall p, Point.Point4 uninit 1 a b c = Ok p ->
             Point.Point4 uninit 0 (Point.x p) (Point.y p) (Point.z p)
             = Ok (Point.Point3 a b c)).
Proof.
  destruct uninit as [ux uy uz].
  repeat split; try reflexivity; intros p H; cbn in H; injection H as <-; reflexivity.
Qed.

(** X8.  For an axis in range the four-argument constructor loses nothing:
    equal points were built from equal coordinates, and the point is zero
    exactly when the three coordinates are. *)
Theorem Point4_injective (u u' : Point.t) (axis a b c a' b' c' : Z) :
  0 <= axis < 3 ->
  (Point.Point4 u axis a b c = Point.Point4 u' axis a' b' c' ->
   a = a' /\ b = b' /\ c = c') /\
  (forall p, Point.Point4 u axis a b c = Ok p ->
             (Point.isZero p = true <-> a = 0 /\ b = 0 /\ c = 0)).
Proof.
  intros H. destruct u as [ux uy uz], u' as [vx vy vz].
  destruct (axis_cases _ H) as [-> | [-> | ->]]; cbn; split;
    try (intros E; injection E as -> -> ->; repeat split);
    intros p E; injection E as <-; unfold Point.isZero; cbn;
    rewrite !andb_true_iff, !Z.eqb_eq; tauto.
Qed.

End PointExtras.

(** * Further properties of the [GameClient] *)

Section LoopExtras.

Context {G : Type} {hooks : GameHooks G}.

Local Open Scope Q_scope.

Lemma validPeriod_bounds (c : GameClient) :
  validPeriod c -> 0 < mUpdateFrequency c /\ minPeriod <= mUpdateFrequency c.
Proof.
  intros [Hlo _]. split.
  - apply Qlt_le_trans with (y := 1 # 2 ^ 31); [reflexivity | exact Hlo].
  - apply Qle_trans with (y := 1 # 2 ^ 31); [| exact Hlo].
    unfold minPeriod. vm_compute. discriminate.
Qed.

(** X9.  The constructor fails its assertions exactly when the window or the
    renderer is null; otherwise the client holds the window it was given, is
    neither running nor slow, has as period the [float] quotient
    1.0f / 50.0f, which is 5368709 / 2^28 s, just below 1/50 s, and as sleep
    skew the [float] 0.01f, which is 5368709 / 2^29 s, half the period. *)
Theorem GameClient_ctor_fails_iff (w r : pointer) :
  (GameClient_ctor w r = AssertionFailure <-> w = NULL \/ r = NULL) /\
  (forall c, GameClient_ctor w r = Ok c ->
             mpMainWindow c = w /\
             mIsGameRunning c = false /\
             mIsRunningSlowly c = false /\
             mUpdateFrequency c = float_div 1 50 /\
             mMaximumSleepSkew c = float_literal 0.01 /\
             mUpdateFrequency c == 5368709 # 2 ^ 28 /\
             mMaximumSleepSkew c == 5368709 # 2 ^ 29 /\
             mUpdateFrequency c < 1 # 50 /\
             mMaximumSleepSkew c < 1 # 100 /\
             validPeriod c).
Proof.
  unfold GameClient_ctor.
  destruct w as [| w], r as [| r]; cbn [is_null]; split;
    try (split; [intros _; auto | reflexivity]);
    try discriminate.
  - split; [discriminate | intros [H | H]; discriminate].
  - intros c H. injection H as <-.
    cbn [mpMainWindow mIsGameRunning mIsRunningSlowly mUpdateFrequency
         mMaximumSleepSkew].
    unfold validPeriod, Time_of_seconds.
    cbn [mUpdateFrequency].
    repeat split; try reflexivity; vm_compute; (reflexivity || discriminate).
Qed.

(** X10.  A successful [setUpdateFrequency(n)] with an [int] argument leaves
    a period between 2^-31 s and 1 s, whatever the period was before; with
    such a period a frame can make at most 2^29 + 1 updates; and only the
    last of two calls counts. *)
Theorem setUpdateFrequency_valid (c c' : GameClient) (n : Z) :
  (n <= INT_MAX)%Z ->
  setUpdateFrequency c n = Ok c' ->
  validPeriod c' /\
  (Z.of_nat (maxUpdatesPerFrame (mUpdateFrequency c')) <= 2 ^ 29 + 1)%Z /\
  (forall m, setUpdateFrequency c' m = setUpdateFrequency c m).
Proof.
  intros Hmax H. unfold setUpdateFrequency in H.
  destruct (0 <? n)%Z eqn:Hn; [| discriminate].
  apply Z.ltb_lt in Hn. injection H as <-.
  destruct (double_div_1_bounds n (conj Hn Hmax)) as [Hlo Hhi].
  unfold validPeriod, Time_of_seconds.
  cbn [mUpdateFrequency set_mUpdateFrequency].
  set (P := double_div 1 (inject_Z n)) in *.
  assert (Hpos : 0 < P).
  { apply Qlt_le_trans with (y := 1 # 2 ^ 31); [reflexivity | exact Hlo]. }
  split; [split; assumption |].
  split; [| intros m; reflexivity].
  unfold maxUpdatesPerFrame.
  assert (Hfl0 : (0 <= Qfloor (0.25 / P))%Z).
  { change 0%Z with (Qfloor 0). apply Qfloor_resp_le.
    apply Qle_shift_div_l; [exact Hpos | lra]. }
  assert (Hfl1 : (Qfloor (0.25 / P) <= 2 ^ 29)%Z).
  { change (2 ^ 29)%Z with (Qfloor (inject_Z (2 ^ 29))) at 1.
    apply Qfloor_resp_le.
    apply Qle_shift_div_r; [exact Hpos |].
    assert (H29 : inject_Z (2 ^ 29) == 536870912) by reflexivity.
    assert (Hm : 536870912 * (1 # 2 ^ 31) <= 536870912 * P).
    { apply Qmult_le_l; [reflexivity | exact Hlo]. }
    assert (Hq : 536870912 * (1 # 2 ^ 31) == 0.25) by reflexivity.
    rewrite H29. lra. }
  lia.
Qed.

Lemma frame_updates_le (fuel : nat) (st st2 : LoopState G) (newTime : Time)
      (n2 : Z) (updates : list Event) :
  drain fuel (accumulate st newTime) 0%Z = Some (st2, n2, updates) ->
  0 < mUpdateFrequency (this st) ->
  accumulatedTime st < mUpdateFrequency (this st) ->
  (length updates <= maxUpdatesPerFrame (mUpdateFrequency (this st)))%nat.
Proof.
  intros D Hpos Hacc.
  destruct (drain_inv _ _ _ _ _ _ D) as (_ & _ & _ & Hac & _ & Hnn & _).
  cbn in Hac, Hnn.
  pose proof (clampFrameTime_le (newTime - systemTime st)) as Hcl.
  unfold maxUpdatesPerFrame.
  set (P := mUpdateFrequency (this st)) in *.
  assert (Hfl : (0 <= Qfloor (0.25 / P))%Z).
  { change 0%Z with (Qfloor 0). apply Qfloor_resp_le.
    apply Qle_shift_div_l; [exact Hpos | lra]. }
  destruct updates as [| u updates]; [cbn; lia |].
  pose proof (Hnn ltac:(discriminate)) as H0.
  set (len := Z.of_nat (length (u :: updates))) in *.
  assert (Hk : (inject_Z len - 1) * P < 0.25) by lra.
  assert (Hq : inject_Z len - 1 < 0.25 / P).
  { apply Qlt_shift_div_l; [exact Hpos | exact Hk]. }
  pose proof (Qlt_floor (0.25 / P)) as Hfloor.
  assert (Hz : (len - 1 < Qfloor (0.25 / P) + 1)%Z).
  { rewrite Zlt_Qlt. unfold Z.sub. rewrite inject_Z_plus, inject_Z_opp.
    change (inject_Z 1) with 1. lra. }
  lia.
Qed.

(** X11.  In every frame of the main loop of a client with a positive
    period, however long the measured frame time, the number of [update]
    calls is at most floor(0.25 / period) + 1: the clamp bounds the
    catch-up work of a frame. *)
Theorem updates_per_frame_bounded (fuel : nat) (c : GameClient) (g : G) (now : Time)
        (clock : list Time) (newTime : Time) st evs0 st' evs :
  0 < mUpdateFrequency c ->
  frames fuel (mkLoopState (set_mIsGameRunning c true) g 0 0 now) clock
  = Some (st, evs0) ->
  frame fuel st newTime = Some (st', evs) ->
  (countUpdates evs <= maxUpdatesPerFrame (mUpdateFrequency c))%nat.
Proof.
  intros Hpos F0 F.
  destruct (frames_invariant _ _ _ _ _ F0 Hpos) as [Hc0 Hacc].
  destruct (config_fields _ _ Hc0) as (_ & _ & _ & Hp0 & _).
  cbn in Hp0. rewrite <- Hp0 in Hpos |- *.
  destruct (frame_inversion _ _ _ _ _ F) as (st2 & n2 & updates & D & _ & _ & ->).
  exact (frame_updates_le _ _ _ _ _ _ D Hpos Hacc).
Qed.

Lemma drain_hangs (fuel : nat) :
  forall (st : LoopState G) (n : Z),
    mUpdateFrequency (this st) <= 0 ->
    mUpdateFrequency (this st) <= accumulatedTime st ->
    drain fuel st n = None.
Proof.
  induction fuel as [| fuel IH]; intros st n Hp Hacc; cbn [drain];
    apply Time_ge_true in Hacc as Hb; rewrite Hb; [reflexivity |].
  cbn. rewrite IH; [reflexivity | exact Hp | cbn; lra].
Qed.

Lemma enough_fuel (acc period : Time) :
  0 < period -> exists fuel, acc < inject_Z (Z.of_nat fuel) * period.
Proof.
  intros Hpos.
  exists (Z.to_nat (Qfloor (acc / period) + 1)).
  pose proof (Qlt_floor (acc / period)) as Hfl.
  set (m := (Qfloor (acc / period) + 1)%Z) in *.
  assert (Hm : inject_Z m <= inject_Z (Z.of_nat (Z.to_nat m))).
  { rewrite <- Zle_Qle. lia. }
  assert (H1 : acc < inject_Z m * period).
  { assert (Hd : acc / period * period == acc) by (field; lra).
    assert (Hmul : acc / period * period < inject_Z m * period).
    { apply Qmult_lt_r; assumption. }
    lra. }
  assert (H2 : inject_Z m * period <= inject_Z (Z.of_nat (Z.to_nat m)) * period).
  { apply Qmult_le_compat_r; [exact Hm | lra]. }
  lra.
Qed.

(** X17.  The inner loop never returns, whatever the fuel, exactly when the
    period is zero or negative and the accumulator has reached it; so a
    frame of a client with such a period hangs as soon as the accumulated
    time reaches the period, and with a positive period no frame hangs. *)
Theorem inner_loop_hangs_iff (st : LoopState G) (n : Z) (newTime : Time) :
  ((forall fuel, drain fuel st n = None) <->
   mUpdateFrequency (this st) <= 0 /\
   mUpdateFrequency (this st) <= accumulatedTime st) /\
  ((forall fuel, frame fuel st newTime = None) <->
   mUpdateFrequency (this st) <= 0 /\
   mUpdateFrequency (this st)
   <= accumulatedTime st + clampFrameTime (newTime - systemTime st)).
Proof.
  assert (Hdrain : forall s : LoopState G, forall k : Z,
             (forall fuel, drain fuel s k = None) <->
             mUpdateFrequency (this s) <= 0 /\
             mUpdateFrequency (this s) <= accumulatedTime s).
  { intros s k. split.
    - intros Hnone.
      destruct (Qlt_le_dec 0 (mUpdateFrequency (this s))) as [Hpos | Hnp].
      + destruct (enough_fuel (accumulatedTime s) _ Hpos) as [fuel Hfuel].
        destruct (drain_terminates fuel s k Hpos Hfuel) as [r Hr].
        rewrite Hnone in Hr. discriminate.
      + split; [exact Hnp |].
        destruct (Qlt_le_dec (accumulatedTime s) (mUpdateFrequency (this s)))
          as [Hlt | Hge]; [| exact Hge].
        specialize (Hnone 0%nat). cbn in Hnone.
        apply Time_ge_false in Hlt. rewrite Hlt in Hnone. discriminate.
    - intros [Hp Hacc] fuel. apply drain_hangs; assumption. }
  split; [apply Hdrain |].
  rewrite <- (Hdrain (accumulate st newTime) 0%Z).
  split; intros H fuel; specialize (H fuel); unfold frame in *.
  - destruct (drain fuel (accumulate st newTime) 0%Z) as [[[st2 n2] updates] |];
      [| reflexivity].
    destruct (drawStep st2) as [st3 drawn]. destruct (sleepStep st3) as [st4 slept].
    discriminate.
  - rewrite H. reflexivity.
Qed.

Lemma filter_updates_nil (f : Event -> bool) (evs : list Event) :
  (forall e, isUpdate e = true -> f e = false) ->
  Forall (fun e => isUpdate e = true) evs ->
  filter f evs = [].
Proof.
  intros Hf. induction 1 as [| e evs He _ IH]; [reflexivity |].
  cbn. rewrite (Hf e He). exact IH.
Qed.

(** A frame processes the messages once, draws once and presents once. *)
Lemma frame_counts (fuel : nat) (st : LoopState G) (newTime : Time) st' evs :
  frame fuel st newTime = Some (st', evs) ->
  length (filter isProcessMessages evs) = 1%nat /\
  length (filter isDraw evs) = 1%nat /\
  length (filter isPresent evs) = 1%nat.
Proof.
  intros F.
  destruct (frame_inversion _ _ _ _ _ F) as (st2 & n2 & updates & D & _ & -> & _).
  pose proof (drain_only_updates _ _ _ _ _ _ D) as Hall.
  unfold frameTail. cbn [filter isProcessMessages isDraw isPresent].
  rewrite !filter_app.
  rewrite (filter_updates_nil isProcessMessages updates), (filter_updates_nil isDraw updates),
    (filter_updates_nil isPresent updates);
    try assumption; try (intros [] He; (discriminate || reflexivity)).
  destruct (Time_lt _ _); repeat split.
Qed.

Lemma last_cons_default (l : list Time) :
  forall a d : Time, last (a :: l) d = last l a.
Proof.
  induction l as [| b l IH]; intros a d; [reflexivity |].
  change (last (a :: b :: l) d) with (last (b :: l) d).
  rewrite (IH b d), (IH b a). reflexivity.
Qed.

Lemma frames_counts (fuel : nat) (clock : list Time) :
  forall (st : LoopState G) st' evs,
    frames fuel st clock = Some (st', evs) ->
    mIsGameRunning (this st) = true ->
    config (this st') = config (this st) /\
    systemTime st' = last clock (systemTime st) /\
    length (filter isProcessMessages evs) = length clock /\
    length (filter isDraw evs) = length clock /\
    length (filter isPresent evs) = length clock.
Proof.
  induction clock as [| newTime clock IH]; intros st st' evs F Hrun.
  - injection F as <- <-. repeat split.
  - apply frames_cons_inversion in F.
    destruct F as [(Hstop & _) | (st1 & evs1 & evs2 & F1 & F2 & ->)]; [congruence |].
    destruct (frame_keeps _ _ _ _ _ F1) as (Hc & Hs & _).
    destruct (config_fields _ _ Hc) as (_ & _ & Hr & _).
    destruct (frame_counts _ _ _ _ _ F1) as (Hm1 & Hd1 & Hp1).
    destruct (IH st1 _ _ F2 ltac:(congruence)) as (Hc2 & Hs2 & Hm2 & Hd2 & Hp2).
    rewrite !filter_app, !length_app, Hm1, Hd1, Hp1, Hm2, Hd2, Hp2.
    repeat split; try congruence.
    rewrite Hs2, Hs. symmetry. apply last_cons_default.
Qed.

Lemma frame_shaped (fuel : nat) (st : LoopState G) (newTime : Time) st' evs :
  frame fuel st newTime = Some (st', evs) -> frameShaped evs.
Proof.
  intros F.
  destruct (frame_inversion _ _ _ _ _ F) as (st2 & n2 & updates & D & _ & -> & _).
  pose proof (drain_only_updates _ _ _ _ _ _ D) as Hall.
  unfold frameShaped, frameTail.
  eexists _, updates, _, _, _, _, _.
  split; [reflexivity |]. split; [exact Hall |].
  destruct (Time_lt _ _); [right; eexists; reflexivity | left; reflexivity].
Qed.

Lemma frames_turns (fuel : nat) (clock : list Time) :
  forall (st : LoopState G) st' evs,
    frames fuel st clock = Some (st', evs) ->
    mIsGameRunning (this st) = true ->
    exists turns,
      evs = concat turns /\
      length turns = length clock /\
      Forall frameShaped turns /\
      Forall oneOfEach turns.
Proof.
  induction clock as [| newTime clock IH]; intros st st' evs F Hrun.
  - injection F as <- <-. exists []. repeat split; constructor.
  - apply frames_cons_inversion in F.
    destruct F as [(Hstop & _) | (st1 & evs1 & evs2 & F1 & F2 & ->)]; [congruence |].
    destruct (frame_keeps _ _ _ _ _ F1) as (Hc & _).
    destruct (config_fields _ _ Hc) as (_ & _ & Hr & _).
    destruct (IH st1 _ _ F2 ltac:(congruence)) as (turns & -> & Hlen & Hshape & Hone).
    exists (evs1 :: turns). cbn [concat length].
    split; [reflexivity |]. split; [congruence |].
    split; constructor; try assumption.
    + exact (frame_shaped _ _ _ _ _ F1).
    + exact (frame_counts _ _ _ _ _ F1).
Qed.

(** X12.  With a positive period the main loop returns, and its trace is,
    between the entry and the exit, one turn per clock reading, each turn
    being one [processMessages], then the updates, then one [draw] followed
    by one [present], then at most one sleep; the last reading is left as
    the system time. *)
Theorem one_draw_per_frame (fuel : nat) (c : GameClient) (g : G) (now : Time)
        (clock : list Time) :
  0 < mUpdateFrequency c ->
  (frameFuel (mUpdateFrequency c) <= fuel)%nat ->
  exists st turns,
    runMainGameLoop fuel c g now clock
    = Some (EPROGRAM_OK, st, EvEnterMainLoop :: concat turns ++ [EvLeaveMainLoop]) /\
    length turns = length clock /\
    Forall frameShaped turns /\
    Forall oneOfEach turns /\
    systemTime st = last clock now.
Proof.
  intros Hpos Hfuel.
  destruct (frames_run fuel clock (mkLoopState (set_mIsGameRunning c true) g 0 0 now))
    as (st & evs & F & _); try assumption; try reflexivity.
  destruct (runMainGameLoop_frames _ _ _ _ _ _ _ F) as [R _].
  destruct (frames_counts _ _ _ _ _ F eq_refl) as (_ & Hs & _).
  destruct (frames_turns _ _ _ _ _ F eq_refl) as (turns & -> & Hlen & Hshape & Hone).
  exists st, turns. repeat split; assumption.
Qed.

(** X16.  When [run()] returns, a fatal-error status comes with the client
    untouched, and a success status with a client that still has its window,
    renderer, period and sleep skew and whose running flag is still set: the
    loop sets [mIsGameRunning] and nothing clears it. *)
Theorem run_leaves_client_running (fuel : nat) (c : GameClient) (g : G) (now : Time)
        (clock : list Time) status c' g' evs :
  run fuel c g now clock = Some (status, c', g', evs) ->
  (status = EPROGRAM_FATAL_ERROR -> c' = c) /\
  (status = EPROGRAM_OK ->
   mIsGameRunning c' = true /\
   mpMainWindow c' = mpMainWindow c /\
   mpRenderer c' = mpRenderer c /\
   mUpdateFrequency c' = mUpdateFrequency c /\
   mMaximumSleepSkew c' = mMaximumSleepSkew c).
Proof.
  unfold run. intros R.
  destruct (initializeClient g) as [ok1 g1].
  destruct ok1; cbn [negb] in R;
    [| injection R as <- <- <- <-; split; [reflexivity | discriminate]].
  destruct (initialize g1) as [ok2 g2].
  destruct ok2; cbn [negb] in R;
    [| injection R as <- <- <- <-; split; [reflexivity | discriminate]].
  destruct (loadContent g2) as [ok3 g3].
  destruct ok3; cbn [negb] in R;
    [| injection R as <- <- <- <-; split; [reflexivity | discriminate]].
  unfold runMainGameLoop in R.
  destruct (frames fuel _ clock) as [[st evs1] |] eqn:F; [| discriminate].
  injection R as <- <- <- <-.
  split; [discriminate |]. intros _.
  destruct (frames_counts _ _ _ _ _ F eq_refl) as (Hc & _).
  destruct (config_fields _ _ Hc) as (Hw & Hr & Hrun & Hp & Hk).
  cbn in Hw, Hr, Hrun, Hp, Hk. repeat split; assumption.
Qed.

Lemma countUpdates_cons (e : Event) (evs : list Event) :
  countUpdates (e :: evs)
  = if isUpdate e then S (countUpdates evs) else countUpdates evs.
Proof. unfold countUpdates. cbn. destruct (isUpdate e); reflexivity. Qed.

Lemma timed_app (period : Time) (a b : list Event) :
  forall k, timed period k (a ++ b)
            <-> timed period k a /\ timed period (k + countUpdates a) b.
Proof.
  induction a as [| e a IH]; intros k.
  - cbn. rewrite Nat.add_0_r. tauto.
  - rewrite countUpdates_cons.
    destruct e; cbn [app timed isUpdate]; rewrite IH, ?Nat.add_succ_r; cbn [Nat.add];
      tauto.
Qed.

Lemma drain_timed (fuel : nat) :
  forall (st : LoopState G) (n : Z) st' n' evs k,
    drain fuel st n = Some (st', n', evs) ->
    simulationTime st == inject_Z (Z.of_nat k) * mUpdateFrequency (this st) ->
    timed (mUpdateFrequency (this st)) k evs.
Proof.
  induction fuel as [| fuel IH]; intros st n st' n' evs k H Hk; cbn in H.
  - destruct (Time_ge _ _); [discriminate |]. injection H as <- <- <-. exact I.
  - destruct (Time_ge _ _); [| injection H as <- <- <-; exact I].
    destruct (drain fuel _ _) as [[[st2 n2] evs2] |] eqn:D; [| discriminate].
    injection H as <- <- <-.
    cbn [timed]. split; [exact Hk |]. split; [reflexivity |].
    apply (IH _ _ _ _ _ (S k) D).
    rewrite inject_nat_succ.
    change (simulationTime st + mUpdateFrequency (this st)
            == (inject_Z (Z.of_nat k) + 1) * mUpdateFrequency (this st)).
    rewrite Hk. ring.
Qed.

Lemma frame_timed (fuel : nat) (st : LoopState G) (newTime : Time) st' evs k :
  frame fuel st newTime = Some (st', evs) ->
  simulationTime st == inject_Z (Z.of_nat k) * mUpdateFrequency (this st) ->
  timed (mUpdateFrequency (this st)) k evs /\
  simulationTime st'
  == inject_Z (Z.of_nat (k + countUpdates evs)) * mUpdateFrequency (this st).
Proof.
  intros F Hk.
  destruct (frame_inversion _ _ _ _ _ F) as (st2 & n2 & updates & D & -> & -> & Hcnt).
  destruct (drain_inv _ _ _ _ _ _ D) as (_ & _ & Hsim & _).
  pose proof (drain_timed _ _ _ _ _ _ k D Hk) as Ht.
  pose proof (drain_inv _ _ _ _ _ _ D) as (_ & _ & _ & _ & _ & _ & Hlen).
  cbn in Hsim, Ht.
  assert (Hsim2 : simulationTime st2
                  == inject_Z (Z.of_nat (k + length updates)) * mUpdateFrequency (this st)).
  { rewrite Hsim, Hk, Nat2Z.inj_add, inject_Z_plus. ring. }
  rewrite Hcnt. split; [| exact Hsim2].
  cbn [timed]. apply timed_app. split; [exact Ht |].
  rewrite Hlen. unfold frameTail. cbn [app timed]. split; [exact Hsim2 |].
  destruct (Time_lt _ _); exact I.
Qed.

Lemma frames_timed (fuel : nat) (clock : list Time) :
  forall (st : LoopState G) st' evs k,
    frames fuel st clock = Some (st', evs) ->
    simulationTime st == inject_Z (Z.of_nat k) * mUpdateFrequency (this st) ->
    timed (mUpdateFrequency (this st)) k evs.
Proof.
  induction clock as [| newTime clock IH]; intros st st' evs k F Hk.
  - injection F as <- <-. exact I.
  - apply frames_cons_inversion in F.
    destruct F as [(_ & _ & ->) | (st1 & evs1 & evs2 & F1 & F2 & ->)]; [exact I |].
    destruct (frame_timed _ _ _ _ _ k F1 Hk) as [Ht1 Hsim1].
    destruct (frame_keeps _ _ _ _ _ F1) as (Hc & _).
    destruct (config_fields _ _ Hc) as (_ & _ & _ & Hp & _).
    apply timed_app. split; [exact Ht1 |].
    rewrite <- Hp. apply (IH st1 _ _ _ F2). rewrite Hp. exact Hsim1.
Qed.

(** X13.  In a run of the main loop every [update] is called with the
    simulation time k * period and the time step [period], and every [draw]
    with the simulation time k * period, where k is the number of [update]
    calls made before it in the whole run. *)
Theorem calls_carry_simulation_time (fuel : nat) (c : GameClient) (g : G) (now : Time)
        (clock : list Time) s st evs pre e post :
  runMainGameLoop fuel c g now clock = Some (s, st, evs) ->
  evs = pre ++ e :: post ->
  match e with
  | EvUpdate _ t dt =>
      t == inject_Z (Z.of_nat (countUpdates pre)) * mUpdateFrequency c /\
      dt = mUpdateFrequency c
  | EvDraw _ t _ =>
      t == inject_Z (Z.of_nat (countUpdates pre)) * mUpdateFrequency c
  | _ => True
  end.
Proof.
  unfold runMainGameLoop. intros R Hsplit.
  destruct (frames fuel _ clock) as [[st1 evs1] |] eqn:F; [| discriminate].
  injection R as <- <- <-.
  assert (Ht : timed (mUpdateFrequency c) 0 (EvEnterMainLoop :: evs1 ++ [EvLeaveMainLoop])).
  { cbn [timed]. apply timed_app. split; [| exact I].
    apply (frames_timed _ _ _ _ _ 0%nat F). cbn. ring. }
  rewrite Hsplit in Ht. apply timed_app in Ht. destruct Ht as [_ Ht].
  cbn [Nat.add] in Ht.
  destruct e; try exact I; cbn [timed] in Ht; tauto.
Qed.

Lemma clampFrameTime_le_self (ft : Time) : clampFrameTime ft <= ft.
Proof.
  unfold clampFrameTime.
  destruct (Time_gt ft 0.25) eqn:E; [| lra].
  apply Time_gt_true in E. lra.
Qed.

Lemma sumTimes_clamped_le (clock : list Time) :
  forall now, sumTimes (clampedTimes now clock) <= sumTimes (frameTimes now clock).
Proof.
  induction clock as [| newTime clock IH]; intros now.
  - cbn. lra.
  - unfold clampedTimes in *. cbn [frameTimes map sumTimes fold_right].
    pose proof (clampFrameTime_le_self (newTime - now)) as Hc.
    specialize (IH newTime). unfold sumTimes in IH. lra.
Qed.

(** The books of a frame on a clock that does not run backwards. *)
Lemma frame_accounts (fuel : nat) (st : LoopState G) (newTime : Time) st' evs :
  frame fuel st newTime = Some (st', evs) ->
  0 < mUpdateFrequency (this st) ->
  0 <= accumulatedTime st ->
  systemTime st <= newTime ->
  0 <= accumulatedTime st' /\
  simulationTime st' + accumulatedTime st'
  == simulationTime st + accumulatedTime st + clampFrameTime (newTime - systemTime st) /\
  simulationTime st'
  == simulationTime st
     + inject_Z (Z.of_nat (countUpdates evs)) * mUpdateFrequency (this st).
Proof.
  intros F Hpos Hnn Hclock.
  destruct (frame_interpolation _ _ _ _ _ F Hpos Hnn Hclock) as [Hnn' _].
  destruct (frame_inversion _ _ _ _ _ F) as (st2 & n2 & updates & D & -> & _ & Hcnt).
  destruct (drain_inv _ _ _ _ _ _ D) as (_ & _ & Hsim & Hac & _).
  cbn in Hsim, Hac, Hnn' |- *. rewrite Hcnt.
  repeat split; try assumption.
  rewrite Hsim, Hac. ring.
Qed.

Lemma frames_accounts (fuel : nat) (clock : list Time) :
  forall (st : LoopState G) st' evs,
    frames fuel st clock = Some (st', evs) ->
    mIsGameRunning (this st) = true ->
    0 < mUpdateFrequency (this st) ->
    0 <= accumulatedTime st ->
    Forall (fun ft => 0 <= ft) (frameTimes (systemTime st) clock) ->
    0 <= accumulatedTime st' /\
    simulationTime st' + accumulatedTime st'
    == simulationTime st + accumulatedTime st
       + sumTimes (clampedTimes (systemTime st) clock) /\
    simulationTime st'
    == simulationTime st
       + inject_Z (Z.of_nat (countUpdates evs)) * mUpdateFrequency (this st).
Proof.
  induction clock as [| newTime clock IH]; intros st st' evs F Hrun Hpos Hnn Hall.
  - injection F as <- <-. cbn. change (inject_Z 0) with 0.
    repeat split; try assumption; lra.
  - apply frames_cons_inversion in F.
    destruct F as [(Hstop & _) | (st1 & evs1 & evs2 & F1 & F2 & ->)]; [congruence |].
    cbn [frameTimes] in Hall. apply Forall_cons_iff in Hall. destruct Hall as [Hft Hall].
    destruct (frame_accounts _ _ _ _ _ F1 Hpos Hnn ltac:(lra)) as (Hnn1 & Hsum1 & Hsim1).
    destruct (frame_keeps _ _ _ _ _ F1) as (Hc & Hs & _).
    destruct (config_fields _ _ Hc) as (_ & _ & Hr & Hp & _).
    destruct (IH st1 _ _ F2) as (Hnn2 & Hsum2 & Hsim2).
    { congruence. }
    { rewrite Hp. exact Hpos. }
    { exact Hnn1. }
    { rewrite Hs. exact Hall. }
    rewrite Hp in Hsim2. rewrite Hs in Hsum2.
    split; [exact Hnn2 |]. split.
    + unfold clampedTimes in *. cbn [frameTimes map sumTimes fold_right].
      unfold sumTimes in Hsum2. rewrite Hsum2, Hsum1. ring.
    + rewrite countUpdates_app, Nat2Z.inj_add, inject_Z_plus, Hsim2, Hsim1. ring.
Qed.

(** X14.  On a clock that does not run backwards, whatever the size of the
    frame times, the main loop of a client with a positive period returns
    with simulation time and accumulator together equal to the sum of the
    clamped frame times, the accumulator in [0, period), the number of
    [update] calls equal to floor(that sum / period), and the simulation
    time at most the time that has passed on the clock. *)
Theorem clamped_time_accounting (fuel : nat) (c : GameClient) (g : G) (now : Time)
        (clock : list Time) :
  0 < mUpdateFrequency c ->
  Forall (fun ft => 0 <= ft) (frameTimes now clock) ->
  (frameFuel (mUpdateFrequency c) <= fuel)%nat ->
  exists st evs,
    runMainGameLoop fuel c g now clock = Some (EPROGRAM_OK, st, evs) /\
    simulationTime st + accumulatedTime st == sumTimes (clampedTimes now clock) /\
    0 <= accumulatedTime st /\
    accumulatedTime st < mUpdateFrequency c /\
    Z.of_nat (countUpdates evs)
    = Qfloor (sumTimes (clampedTimes now clock) / mUpdateFrequency c) /\
    simulationTime st <= sumTimes (frameTimes now clock).
Proof.
  intros Hpos Hall Hfuel.
  destruct (frames_run fuel clock (mkLoopState (set_mIsGameRunning c true) g 0 0 now))
    as (st & evs & F & _ & _ & Hlt & _); try assumption; try reflexivity.
  destruct (frames_accounts _ _ _ _ _ F eq_refl Hpos ltac:(cbn; lra) Hall)
    as (Hnn & Hsum & Hsim).
  destruct (runMainGameLoop_frames _ _ _ _ _ _ _ F) as [R Hcnt].
  pose proof (sumTimes_clamped_le clock now) as Hle.
  cbn in Hlt, Hsum, Hsim.
  eexists _, _. split; [exact R |].
  rewrite Hcnt.
  set (k := Z.of_nat (countUpdates evs)) in *.
  set (T := sumTimes (clampedTimes now clock)) in *.
  set (P := mUpdateFrequency c) in *.
  split; [lra |]. split; [exact Hnn |]. split; [exact Hlt |]. split; [| lra].
  symmetry. apply Qfloor_unique.
  - apply Qle_shift_div_l; [exact Hpos | lra].
  - apply Qlt_shift_div_r; [exact Hpos |].
    rewrite inject_Z_plus. change (inject_Z 1) with 1. lra.
Qed.

Lemma frames_never_sleep (fuel : nat) (clock : list Time) :
  forall (st : LoopState G) st' evs,
    frames fuel st clock = Some (st', evs) ->
    0 < mUpdateFrequency (this st) ->
    mUpdateFrequency (this st) <= mMaximumSleepSkew (this st) ->
    0 <= accumulatedTime st ->
    Forall (fun ft => 0 <= ft) (frameTimes (systemTime st) clock) ->
    forall d, ~ In (EvSleep d) evs.
Proof.
  induction clock as [| newTime clock IH]; intros st st' evs F Hpos Hskew Hnn Hall d Hin.
  - injection F as <- <-. destruct Hin.
  - apply frames_cons_inversion in F.
    destruct F as [(_ & _ & ->) | (st1 & evs1 & evs2 & F1 & F2 & ->)]; [destruct Hin |].
    cbn [frameTimes] in Hall. apply Forall_cons_iff in Hall. destruct Hall as [Hft Hall].
    destruct (frame_interpolation _ _ _ _ _ F1 Hpos Hnn ltac:(lra)) as [Hnn1 _].
    destruct (frame_keeps _ _ _ _ _ F1) as (Hc & Hs & _).
    destruct (config_fields _ _ Hc) as (_ & _ & _ & Hp & Hk).
    apply in_app_or in Hin. destruct Hin as [Hin | Hin].
    + assert (Hex : exists d', In (EvSleep d') evs1) by (exists d; exact Hin).
      apply (frame_sleeps _ _ _ _ _ F1) in Hex.
      rewrite Hp, Hk in Hex. lra.
    + apply (IH st1 _ _ F2) with (d := d); try assumption.
      * rewrite Hp. exact Hpos.
      * rewrite Hp, Hk. exact Hskew.
      * rewrite Hs. exact Hall.
Qed.

(** X15.  When the period is positive and not longer than the sleep skew,
    the main loop on a clock that does not run backwards returns without a
    single call to sleep. *)
Theorem never_sleeps_within_skew (fuel : nat) (c : GameClient) (g : G) (now : Time)
        (clock : list Time) :
  0 < mUpdateFrequency c ->
  mUpdateFrequency c <= mMaximumSleepSkew c ->
  Forall (fun ft => 0 <= ft) (frameTimes now clock) ->
  (frameFuel (mUpdateFrequency c) <= fuel)%nat ->
  exists st evs,
    runMainGameLoop fuel c g now clock = Some (EPROGRAM_OK, st, evs) /\
    forall d, ~ In (EvSleep d) evs.
Proof.
  intros Hpos Hskew Hall Hfuel.
  destruct (frames_run fuel clock (mkLoopState (set_mIsGameRunning c true) g 0 0 now))
    as (st & evs & F & _); try assumption; try reflexivity.
  destruct (runMainGameLoop_frames _ _ _ _ _ _ _ F) as [R _].
  eexists _, _. split; [exact R |].
  intros d Hin.
  destruct Hin as [Hin | Hin]; [discriminate |].
  apply in_app_or in Hin. destruct Hin as [Hin | [Hin | []]]; [| discriminate].
  apply (frames_never_sleep _ _ _ _ _ F) with (d := d); cbn; try assumption; lra.
Qed.

Lemma drain_update_flags (fuel : nat) :
  forall (st : LoopState G) (n : Z) st' n' evs,
    drain fuel st n = Some (st', n', evs) ->
    (0 <= n < SIZE_MODULUS)%Z ->
    forall j c' t dt,
      nth_error evs j = Some (EvUpdate c' t dt) ->
      mIsRunningSlowly c' = (0 <? (n + Z.of_nat j) mod SIZE_MODULUS)%Z.
Proof.
  induction fuel as [| fuel IH]; intros st n st' n' evs H Hn j c' t dt Hj;
    unfold drain in H; fold (@drain G hooks) in H.
  - destruct (Time_ge _ _); [discriminate |].
    injection H as <- <- <-. destruct j; discriminate.
  - destruct (Time_ge _ _); [| injection H as <- <- <-; destruct j; discriminate].
    unfold updateStep in H.
    destruct (drain fuel _ _) as [[[st2 n2] evs2] |] eqn:D; [| discriminate].
    injection H as <- <- <-.
    destruct j as [| j].
    + cbn in Hj. injection Hj as <- _ _. cbn.
      rewrite Z.add_0_r, Z.mod_small by exact Hn. reflexivity.
    + cbn [nth_error] in Hj.
      rewrite (IH _ _ _ _ _ D (Z.mod_pos_bound (n + 1) SIZE_MODULUS eq_refl) _ _ _ _ Hj).
      rewrite Zplus_mod_idemp_l. f_equal. f_equal. lia.
Qed.

Lemma filter_updates_all (evs : list Event) :
  Forall (fun e => isUpdate e = true) evs -> filter isUpdate evs = evs.
Proof.
  induction 1 as [| e evs He _ IH]; [reflexivity |].
  cbn. rewrite He, IH. reflexivity.
Qed.

(** X18.  In every frame of the main loop the first [update] call sees the
    "is running slowly" flag false and every later [update] call of the same
    frame sees it true.  (For a period of at least [minPeriod].) *)
Theorem slow_flag_at_update (fuel : nat) (c : GameClient) (g : G) (now : Time)
        (clock : list Time) (newTime : Time) st evs0 st' evs j c' t dt :
  minPeriod <= mUpdateFrequency c ->
  frames fuel (mkLoopState (set_mIsGameRunning c true) g 0 0 now) clock
  = Some (st, evs0) ->
  frame fuel st newTime = Some (st', evs) ->
  nth_error (filter isUpdate evs) j = Some (EvUpdate c' t dt) ->
  (mIsRunningSlowly c' = true <-> (0 < j)%nat).
Proof.
  intros Hmin F0 F Hj.
  assert (Hpos : 0 < mUpdateFrequency c).
  { apply Qlt_le_trans with (y := minPeriod); [reflexivity | exact Hmin]. }
  destruct (frames_invariant _ _ _ _ _ F0 Hpos) as [Hc0 Hacc].
  destruct (config_fields _ _ Hc0) as (_ & _ & _ & Hp0 & _).
  cbn in Hp0. rewrite <- Hp0 in Hmin.
  destruct (frame_inversion _ _ _ _ _ F) as (st2 & n2 & updates & D & _ & -> & _).
  pose proof (drain_only_updates _ _ _ _ _ _ D) as Hall.
  pose proof (frame_updates_bounded _ _ _ _ _ _ D Hmin Hacc) as Hbound.
  assert (Hfilter : filter isUpdate
                      (EvProcessMessages (mpMainWindow (this st)) :: updates ++ frameTail st2)
                    = updates).
  { cbn [filter isUpdate]. rewrite filter_app, (filter_updates_all _ Hall).
    unfold frameTail. destruct (Time_lt _ _); cbn; apply app_nil_r. }
  rewrite Hfilter in Hj.
  assert (Hlen : (j < length updates)%nat).
  { apply nth_error_Some. rewrite Hj. discriminate. }
  rewrite (drain_update_flags _ _ _ _ _ _ D ltac:(unfold SIZE_MODULUS; lia) _ _ _ _ Hj).
  rewrite Z.add_0_l, Z.mod_small by lia.
  rewrite Z.ltb_lt. lia.
Qed.

End LoopExtras.


(** * Further worked runs *)

Section ExtraRuns.

Local Open Scope Q_scope.

Lemma Point_store_index_witness :
  exists p',
    Point.store (Point.mk 7 8 9) 1 5 = Ok p' /\
    Point.index p' 1 = Ok 5%Z /\
    forall j, j <> 1%Z -> Point.index p' j = Point.index (Point.mk 7 8 9) j.
Proof. apply (Point_store_index (Point.mk 7 8 9) 1 5). lia. Defined.

Lemma Point4_injective_witness :
  (Point.Point4 (Point.mk 7 8 9) 0 1 2 3 = Point.Point4 (Point.mk 0 0 0) 0 1 2 3 ->
   1 = 1 /\ 2 = 2 /\ 3 = 3)%Z /\
  (forall p, Point.Point4 (Point.mk 7 8 9) 0 1 2 3 = Ok p ->
             (Point.isZero p = true <-> 1 = 0 /\ 2 = 0 /\ 3 = 0)%Z).
Proof.
  apply (Point4_injective (Point.mk 7 8 9) (Point.mk 0 0 0) 0 1 2 3 1 2 3). lia.
Defined.

Lemma setUpdateFrequency_valid_witness :
  exists c',
    setUpdateFrequency exampleClient 100 = Ok c' /\
    validPeriod c' /\
    (Z.of_nat (maxUpdatesPerFrame (mUpdateFrequency c')) <= 2 ^ 29 + 1)%Z /\
    (forall m, setUpdateFrequency c' m = setUpdateFrequency exampleClient m).
Proof.
  eexists. split; [reflexivity |].
  apply (setUpdateFrequency_valid exampleClient _ 100).
  - vm_compute. discriminate.
  - reflexivity.
Defined.

Example maxUpdatesPerFrame_50Hz :
  maxUpdatesPerFrame (mUpdateFrequency exampleClient) = 13%nat.
Proof. vm_compute. reflexivity. Qed.

(** A stall of ten seconds after 0.019 s of carried time: thirteen updates,
    the bound at 50 Hz. *)
Lemma updates_per_frame_bounded_witness :
  exists st evs0 st' evs,
    frames 14 exampleStart [0.019] = Some (st, evs0) /\
    frame 14 st 10 = Some (st', evs) /\
    countUpdates evs = 13%nat /\
    (countUpdates evs <= maxUpdatesPerFrame (mUpdateFrequency exampleClient))%nat.
Proof.
  eexists _, _, _, _.
  split; [vm_compute; reflexivity |].
  split; [vm_compute; reflexivity |].
  split; [reflexivity |].
  apply (@updates_per_frame_bounded unit BaseHooks 14 exampleClient tt 0 [0.019] 10
           _ _ _ _ ltac:(reflexivity) ltac:(vm_compute; reflexivity)
           ltac:(vm_compute; reflexivity)).
Defined.

Lemma one_draw_per_frame_witness :
  exists st turns,
    runMainGameLoop 14 exampleClient tt 0 [0.05; 0.06; 0.08]
    = Some (EPROGRAM_OK, st, EvEnterMainLoop :: concat turns ++ [EvLeaveMainLoop]) /\
    length turns = 3%nat /\
    Forall frameShaped turns /\
    Forall oneOfEach turns /\
    systemTime st = 0.08.
Proof.
  apply (@one_draw_per_frame unit BaseHooks 14 exampleClient tt 0 [0.05; 0.06; 0.08]).
  - vm_compute. reflexivity.
  - vm_compute. lia.
Defined.

Lemma calls_carry_simulation_time_witness :
  exists s st evs pre this t dt post,
    runMainGameLoop 14 exampleClient tt 0 [0.05] = Some (s, st, evs) /\
    evs = pre ++ EvUpdate this t dt :: post /\
    countUpdates pre = 1%nat /\
    t == inject_Z 1 * mUpdateFrequency exampleClient /\
    dt = mUpdateFrequency exampleClient.
Proof.
  assert (H : exists s st evs pre this t dt post,
             runMainGameLoop 14 exampleClient tt 0 [0.05] = Some (s, st, evs) /\
             evs = pre ++ EvUpdate this t dt :: post /\
             countUpdates pre = 1%nat).
  { exists EPROGRAM_OK.
    eexists _, _, [EvEnterMainLoop; EvProcessMessages (Addr 1); EvUpdate _ _ _], _, _, _, _.
    split; [vm_compute; reflexivity |]. split; reflexivity. }
  destruct H as (s & st & evs & pre & c & t & dt & post & R & Hsplit & Hcnt).
  exists s, st, evs, pre, c, t, dt, post.
  split; [exact R |]. split; [exact Hsplit |]. split; [exact Hcnt |].
  pose proof (@calls_carry_simulation_time unit BaseHooks 14 exampleClient tt 0 [0.05]
                s st evs pre (EvUpdate c t dt) post R Hsplit) as Hcall.
  cbn beta iota in Hcall. rewrite Hcnt in Hcall. exact Hcall.
Defined.

Lemma clamped_time_accounting_witness :
  exists st evs,
    runMainGameLoop 14 exampleClient tt 0 [0.05; 10] = Some (EPROGRAM_OK, st, evs) /\
    simulationTime st + accumulatedTime st == sumTimes (clampedTimes 0 [0.05; 10]) /\
    0 <= accumulatedTime st /\
    accumulatedTime st < mUpdateFrequency exampleClient /\
    Z.of_nat (countUpdates evs)
    = Qfloor (sumTimes (clampedTimes 0 [0.05; 10]) / mUpdateFrequency exampleClient) /\
    simulationTime st <= sumTimes (frameTimes 0 [0.05; 10]).
Proof.
  apply (@clamped_time_accounting unit BaseHooks 14 exampleClient tt 0 [0.05; 10]).
  - reflexivity.
  - repeat constructor; vm_compute; discriminate.
  - vm_compute. lia.
Defined.

Example clamped_run_count :
  option_map (fun r => countUpdates (snd r))
             (runMainGameLoop 14 exampleClient tt 0 [0.05; 10])
  = Some 15%nat.
Proof. vm_compute. reflexivity. Qed.

Lemma never_sleeps_within_skew_witness :
  exists c st evs,
    setUpdateFrequency exampleClient 128 = Ok c /\
    mUpdateFrequency c <= mMaximumSleepSkew c /\
    runMainGameLoop 34 c tt 0 [0; 0.001; 0.3] = Some (EPROGRAM_OK, st, evs) /\
    forall d, ~ In (EvSleep d) evs.
Proof.
  eexists.
  assert (Hskew : mUpdateFrequency
                    (set_mUpdateFrequency exampleClient
                       (Time_of_seconds (double_div 1 (inject_Z 128))))
                  <= mMaximumSleepSkew
                       (set_mUpdateFrequency exampleClient
                          (Time_of_seconds (double_div 1 (inject_Z 128)))))
    by (vm_compute; discriminate).
  destruct (@never_sleeps_within_skew unit BaseHooks 34
              (set_mUpdateFrequency exampleClient
                 (Time_of_seconds (double_div 1 (inject_Z 128)))) tt 0 [0; 0.001; 0.3])
    as (st & evs & R & Hno).
  - vm_compute. reflexivity.
  - exact Hskew.
  - repeat constructor; vm_compute; discriminate.
  - vm_compute. lia.
  - exists st, evs. split; [reflexivity |]. split; [exact Hskew |].
    split; [exact R | exact Hno].
Defined.

(** At 100 updates per second the period, the [double] nearest 1/100, is
    longer than the skew, the [float] nearest 1/100, and an idle frame
    sleeps. *)
Example hundred_hertz_sleeps :
  exists c st evs,
    setUpdateFrequency exampleClient 100 = Ok c /\
    mMaximumSleepSkew c < mUpdateFrequency c /\
    frame 27 (mkLoopState (set_mIsGameRunning c true) tt 0 0 0) 0 = Some (st, evs) /\
    In (EvSleep 2.0) evs.
Proof.
  eexists _, _, _. split; [reflexivity |].
  split; [vm_compute; reflexivity |].
  split; [vm_compute; reflexivity |].
  do 3 right. left. reflexivity.
Qed.

(** At the default 50 Hz an idle frame does sleep. *)
Example default_client_sleeps :
  exists st evs, frame 14 exampleStart 0.001 = Some (st, evs) /\ In (EvSleep 2.0) evs.
Proof.
  eexists _, _. split; [vm_compute; reflexivity |].
  do 3 right. left. reflexivity.
Qed.

Lemma run_leaves_client_running_witness :
  exists c' evs,
    run 14 exampleClient tt 0 [0.05] = Some (EPROGRAM_OK, c', tt, evs) /\
    mIsGameRunning exampleClient = false /\
    mIsGameRunning c' = true.
Proof.
  eexists _, _.
  split; [vm_compute; reflexivity |].
  split; [reflexivity |].
  match goal with
  | |- mIsGameRunning ?c = true =>
      exact (proj1 (proj2 (@run_leaves_client_running unit BaseHooks 14 exampleClient tt 0
                             [0.05] EPROGRAM_OK c tt _ ltac:(vm_compute; reflexivity))
                      eq_refl))
  end.
Defined.

Lemma slow_flag_at_update_witness :
  exists st evs0 st' evs c' t dt,
    frames 14 exampleStart [0.01] = Some (st, evs0) /\
    frame 14 st 0.06 = Some (st', evs) /\
    nth_error (filter isUpdate evs) 2 = Some (EvUpdate c' t dt) /\
    mIsRunningSlowly c' = true.
Proof.
  eexists _, _, _, _, _, _, _.
  split; [vm_compute; reflexivity |].
  split; [vm_compute; reflexivity |].
  split; [vm_compute; reflexivity |].
  match goal with
  | |- mIsRunningSlowly ?c = true =>
      apply (@slow_flag_at_update unit BaseHooks 14 exampleClient tt 0 [0.01] 0.06
               _ _ _ _ 2%nat c _ _
               ltac:(vm_compute; discriminate)
               ltac:(vm_compute; reflexivity)
               ltac:(vm_compute; reflexivity)
               ltac:(vm_compute; reflexivity))
  end.
  lia.
Defined.

End ExtraRuns.
